(** * ScatterAnimate.py: a shallow embedding of [ScatterAnimation]

    The class animates a sequence of 2-D scatter snapshots with matplotlib.
    The embedding follows the three methods of the source,
    [__init__], [initScat] and [update], statement by statement:

    - Python integers are [Z]; [//] and [%] are [Z.div] and [Z.modulo]
      (both floor towards minus infinity, as Python does) guarded by
      [ZeroDivisionError];
    - numpy [float64] values are Rocq's primitive binary64 floats, so the
      arithmetic of [update] is IEEE arithmetic and not an idealisation;
    - numpy arrays live in a heap, addressed by location: the caller's
      snapshots are referenced (never copied) by [self.position] and
      [self.sizes], the arrays built by [update] are allocated behind them,
      and the masked assignment of line 155 is a write into the heap;
    - Python exceptions are an outcome of the state monad [M], which keeps
      the state reached when the exception was raised;
    - matplotlib artists ([Text], [PathCollection], [Line2D]) are records
      holding what the calls of the source pass to them.

    Outside the model: the progress message [update] prints, the legend,
    [plt.close()], the argument checks matplotlib makes on its own, and
    what a draw hook of [helpers] does besides drawing on the axes or
    raising. The properties that conclude that a pass of the animation
    returns are therefore stated on inputs that matplotlib and numpy
    accept ([accepted]). Position and size arrays are taken to be
    [float64] arrays of shape (n, 2) and (n,). *)

From Stdlib Require Import ZArith Lia List Bool.
From Stdlib Require Import Floats.
From Stdlib Require Import Numbers.Cyclic.Int63.Uint63.
From stdpp Require Import base option list strings gmap.

Set Warnings "-inexact-float".
Local Open Scope Z_scope.

(** ** Python values and control *)

Module Py.

(** The exceptions the three methods can raise. [Dangling] is not a Python
    exception: it marks a reference that points outside the modelled heap,
    which no Python program can build. *)
Inductive exn : Type :=
| TypeError
| IndexError
| ValueError
| ZeroDivisionError
| AttributeError
| Dangling.

Inductive outcome (A : Type) : Type :=
| Ok (a : A)
| Raise (e : exn).
Arguments Ok {A} a.
Arguments Raise {A} e.

(** [l[z]] on a list: negative indices count from the end. *)
Definition index {A} (l : list A) (z : Z) : outcome A :=
  let n := Z.of_nat (length l) in
  let k := if z <? 0 then n + z else z in
  if (k <? 0) || (n <=? k) then Raise IndexError
  else match l !! Z.to_nat k with
       | Some a => Ok a
       | None => Raise IndexError
       end.

(** [o[...]] where [o] may be [None]: ['NoneType' object is not
    subscriptable]. *)
Definition subscriptable {A} (o : option A) : outcome A :=
  match o with Some a => Ok a | None => Raise TypeError end.

(** [len(o)] where [o] may be [None]. *)
Definition len {A} (o : option (list A)) : outcome Z :=
  match o with
  | Some l => Ok (Z.of_nat (length l))
  | None => Raise TypeError
  end.

(** [self.attr] for an attribute that [initScat] creates. *)
Definition attribute {A} (o : option A) : outcome A :=
  match o with Some a => Ok a | None => Raise AttributeError end.

Definition floordiv (a b : Z) : outcome Z :=
  if b =? 0 then Raise ZeroDivisionError else Ok (a / b).

Definition modulo (a b : Z) : outcome Z :=
  if b =? 0 then Raise ZeroDivisionError else Ok (a mod b).

(** [range(a, b)] as the list of its elements. *)
Definition range (a b : Z) : list Z :=
  map (fun k => a + Z.of_nat k) (seq 0 (Z.to_nat (b - a))).

(** [enumerate(l)]. *)
Definition enumerate {A} (l : list A) : list (Z * A) :=
  combine (range 0 (Z.of_nat (length l))) l.

End Py.
Export Py.

(** ** numpy: float64 scalars and the array operations the source uses *)

Module Np.

Abbreviation float64 := PrimFloat.float.

(** A Python [int] operand of an array operation is converted to
    [float64]. An int that fits a signed 64-bit integer is cast by the
    machine: the magnitude is converted and the sign restored. A larger
    one goes through the conversion of Python's unbounded ints, which
    rounds to the nearest [float64], ties to even. An int beyond the range
    of [float64], which Python refuses with [OverflowError], gives an
    infinity here: the theorems that state values bound the ints. *)
Definition of_int (z : Z) : float64 :=
  if (- 2 ^ 63 <? z) && (z <? 2 ^ 63) then
    if z <? 0 then PrimFloat.opp (PrimFloat.of_uint63 (Uint63.of_Z (- z)))
    else PrimFloat.of_uint63 (Uint63.of_Z z)
  else SF2Prim (binary_normalize prec emax z 0 false).

(** [x > y] on floats: false when either side is NaN. *)
Definition gt (x y : float64) : bool := PrimFloat.ltb y x.

(** A 1-D array of shape (n,) and a 2-D array of shape (n, 2), the latter
    as the list of its rows. *)
Abbreviation arr1 := (list float64).
Abbreviation row := (float64 * float64)%type.
Abbreviation arr2 := (list (float64 * float64)).

Definition row_map (f : float64 -> float64) (r : row) : row :=
  (f r.1, f r.2).
Definition row_map2 (f : float64 -> float64 -> float64) (r s : row) : row :=
  (f r.1 s.1, f r.2 s.2).

(** [a.T[0]] and [a.T[1]]: the two columns. *)
Definition T0 (a : arr2) : arr1 := map fst a.
Definition T1 (a : arr2) : arr1 := map snd a.

(** Elementwise binary operation on two (n, 2) arrays with numpy's
    broadcasting over the first axis: equal row counts, or one operand
    with a single row, which is repeated; anything else is a
    [ValueError]. *)
Definition broadcast (f : float64 -> float64 -> float64) (a b : arr2)
  : outcome arr2 :=
  if Nat.eqb (length a) (length b) then Ok (zip_with (row_map2 f) a b)
  else match a, b with
       | [r], _ => Ok (map (row_map2 f r) b)
       | _, [s] => Ok (map (fun r => row_map2 f r s) a)
       | _, _ => Raise ValueError
       end.

(** Array-with-scalar operations. *)
Definition mul_scalar (a : arr2) (t : float64) : arr2 :=
  map (row_map (fun x => PrimFloat.mul x t)) a.
Definition div_scalar (a : arr2) (k : float64) : arr2 :=
  map (row_map (fun x => PrimFloat.div x k)) a.
Definition absolute (a : arr2) : arr2 := map (row_map PrimFloat.abs) a.
Definition gt_scalar (v : arr1) (s : float64) : list bool :=
  map (fun x => gt x s) v.
Definition mask_or (m1 m2 : list bool) : list bool := zip_with orb m1 m2.

(** [a[mask]] for a boolean mask over the first axis: a fresh array of
    the selected entries; the mask must be as long as the axis. *)
Fixpoint select {A} (a : list A) (mask : list bool) : list A :=
  match a, mask with
  | x :: a', b :: mask' =>
      if b then x :: select a' mask' else select a' mask'
  | _, _ => []
  end.

Definition getmask {A} (a : list A) (mask : list bool) : outcome (list A) :=
  if Nat.eqb (length a) (length mask) then Ok (select a mask)
  else Raise IndexError.

(** [a[mask] = vals]: the selected entries of [a] are overwritten, in
    order, by the entries of [vals]. *)
Fixpoint assign {A} (a : list A) (mask : list bool) (vals : list A) : list A :=
  match a, mask with
  | x :: a', b :: mask' =>
      if b then
        match vals with
        | v :: vals' => v :: assign a' mask' vals'
        | [] => x :: assign a' mask' []
        end
      else x :: assign a' mask' vals
  | _, _ => a
  end.

Definition count_true (mask : list bool) : nat :=
  length (List.filter (fun b : bool => b) mask).

(** The values must be as many as the selected entries, or a single row,
    which numpy repeats. *)
Definition setmask {A} (a : list A) (mask : list bool) (vals : list A)
  : outcome (list A) :=
  if negb (Nat.eqb (length a) (length mask)) then Raise IndexError
  else if Nat.eqb (length vals) (count_true mask) then Ok (assign a mask vals)
  else match vals with
       | [v] => Ok (assign a mask (replicate (count_true mask) v))
       | _ => Raise ValueError
       end.

End Np.
Export Np.

(** ** matplotlib artists *)

Module Mpl.

(** What a [Text] shows: [ax.text] and [set_text] are given a string,
    except the debug counter, which is given the frame number itself. *)
Inductive content : Type :=
| Str (s : string)
| Int (i : Z).

Record Text : Type := mkText {
  text_xy : row;
  text_s : content;
  text_fontsize : option Z;
}.

Definition set_text (s : content) (t : Text) : Text :=
  {| text_xy := text_xy t; text_s := s; text_fontsize := text_fontsize t |}.
Definition set_position (xy : row) (t : Text) : Text :=
  {| text_xy := xy; text_s := text_s t; text_fontsize := text_fontsize t |}.

(** The collection [scatter] returns. [pc_offsets] and [pc_sizes] are what
    the backend draws ([get_offsets()], [get_sizes()]); they are copies of
    the arrays given to [scatter], [set_offsets] and [set_sizes].
    [pc_dict] holds the instance attributes that Python code assigns on
    the object from outside, by name; their values are references. *)
Record PathCollection : Type := mkPathCollection {
  pc_offsets : arr2;
  pc_sizes : arr1;
  pc_c : option (list Z);
  pc_cmap : option string;
  pc_alpha : float64;
  pc_edgecolors : option string;
  pc_animated : bool;
  pc_dict : gmap string nat;
}.

(** [scatter(x, y, c=, cmap=, s=, animated=, alpha=, edgecolors=)]: the
    collection matplotlib builds when it accepts the arguments. Its
    refusals ([ValueError] when the colour index [c] has not one entry per
    point, or when [cmap] names no colour map) are not modelled: the
    properties that conclude that [initScat] returns are stated on inputs
    that matplotlib accepts (see [accepted] below). *)
Definition scatter (x y : arr1) (c : option (list Z)) (cmap : option string)
    (s : arr1) (animated : bool) (alpha : float64)
    (edgecolors : option string) : PathCollection :=
  {| pc_offsets := combine x y; pc_sizes := s; pc_c := c; pc_cmap := cmap;
     pc_alpha := alpha; pc_edgecolors := edgecolors;
     pc_animated := animated; pc_dict := ∅ |}.

Definition set_offsets (offsets : arr2) (p : PathCollection) : PathCollection :=
  {| pc_offsets := offsets; pc_sizes := pc_sizes p; pc_c := pc_c p;
     pc_cmap := pc_cmap p; pc_alpha := pc_alpha p;
     pc_edgecolors := pc_edgecolors p; pc_animated := pc_animated p;
     pc_dict := pc_dict p |}.

(** [p.name = ref] for a name that is not a property of the class: it
    lands in the instance dictionary and nothing else changes. *)
Definition setattr (name : string) (ref : nat) (p : PathCollection)
  : PathCollection :=
  {| pc_offsets := pc_offsets p; pc_sizes := pc_sizes p; pc_c := pc_c p;
     pc_cmap := pc_cmap p; pc_alpha := pc_alpha p;
     pc_edgecolors := pc_edgecolors p; pc_animated := pc_animated p;
     pc_dict := <[name := ref]> (pc_dict p) |}.

(** The line [ax.plot([x0, x1], [y0, y1], color='k', alpha=0.5,
    linestyle='-')] adds. *)
Record Line2D : Type := mkLine2D {
  line_xdata : row;
  line_ydata : row;
}.

(** The artists on the axes that no attribute of the animation refers to:
    the shadow scatter, the connecting lines, and whatever the caller's
    draw hooks add. *)
Record Axes : Type := mkAxes {
  ax_collections : list PathCollection;
  ax_lines : list Line2D;
  ax_extra : list string;
}.

Definition add_collection (p : PathCollection) (a : Axes) : Axes :=
  {| ax_collections := ax_collections a ++ [p]; ax_lines := ax_lines a;
     ax_extra := ax_extra a |}.
Definition add_lines (ls : list Line2D) (a : Axes) : Axes :=
  {| ax_collections := ax_collections a; ax_lines := ax_lines a ++ ls;
     ax_extra := ax_extra a |}.

(** The figure settings [__init__] passes to pyplot. *)
Record Figure : Type := mkFigure {
  fig_figsize : option (float64 * float64);
  fig_axis : list float64;
  fig_title : option string;
  fig_xlabel : option string;
  fig_ylabel : option string;
  fig_fontsize : Z;
}.

End Mpl.
Export Mpl.

(** ** The class [ScatterAnimation] *)

Module ScatterAnimation.

(** Locations of numpy arrays: an index into one of the two heaps of the
    state, [heap2] for (n, 2) position arrays and [heap1] for (n,) size
    arrays. *)
Abbreviation loc := nat.

(** An entry of [helpers], a pair [(func, params)] of the caller's: the
    call [func( *params)] draws on the axes, or raises. *)
Definition helper : Type := Axes -> outcome Axes.

(** The arguments of [__init__]. [position] and [sizes] are Python lists
    of references to the caller's arrays. *)
Record args : Type := mkArgs {
  position : list loc;
  sizes : option (list loc);
  frame_labels : option (list string);
  text_labels : option (list string);
  animated : Z;
  paused : Z;
  threshold : float64;
  colors : bool;
  cmap : option string;
  shadows : bool;
  lines : bool;
  axis : list float64;
  title : option string;
  xlabel : option string;
  ylabel : option string;
  repeat_ : bool;
  fontsize : Z;
  frame_loc : row;
  figsize : option (float64 * float64);
  debug : bool;
  helpers : option (list helper);
}.

(** The defaults of the signature of [__init__]. *)
Definition defaults (position : list loc) : args :=
  {| position := position; sizes := None; frame_labels := None;
     text_labels := None; animated := 10; paused := 3;
     threshold := 0%float; colors := false; cmap := None;
     shadows := false; lines := false;
     axis := [0%float; 1%float; 0%float; 1%float];
     title := None; xlabel := None; ylabel := None; repeat_ := true;
     fontsize := 16; frame_loc := (0%float, 0%float); figsize := None;
     debug := false; helpers := None |}.

(** What [__init__] stores on [self] and never assigns again: the
    arguments, the two derived frame counts, the figure, and the frame
    sequence and repeat flag given to [FuncAnimation]. *)
Record object : Type := mkObject {
  given :> args;
  framedelta : Z;
  numframes : Z;
  fig : Figure;
  anim_frames : list Z;
  anim_repeat : bool;
}.

(** The state a method runs in: the object, the heaps of numpy arrays,
    the attributes [initScat] creates ([None] while the attribute does not
    exist yet) and the axes. [c] is [Some None] when [self.c] is Python's
    [None]. *)
Record state : Type := mkState {
  self :> object;
  heap2 : list arr2;
  heap1 : list arr1;
  frame_text : option Text;
  ax_texts : option (list (option Text));
  idx_counter : option Text;
  c : option (option (list Z));
  scat : option PathCollection;
  ax : Axes;
}.

Definition with_heap2 (h : list arr2) (s : state) : state :=
  mkState (self s) h (heap1 s) (frame_text s) (ax_texts s) (idx_counter s)
          (c s) (scat s) (ax s).
Definition with_frame_text (t : option Text) (s : state) : state :=
  mkState (self s) (heap2 s) (heap1 s) t (ax_texts s) (idx_counter s)
          (c s) (scat s) (ax s).
Definition with_ax_texts (t : option (list (option Text))) (s : state) : state :=
  mkState (self s) (heap2 s) (heap1 s) (frame_text s) t (idx_counter s)
          (c s) (scat s) (ax s).
Definition with_idx_counter (t : option Text) (s : state) : state :=
  mkState (self s) (heap2 s) (heap1 s) (frame_text s) (ax_texts s) t
          (c s) (scat s) (ax s).
Definition with_c (v : option (option (list Z))) (s : state) : state :=
  mkState (self s) (heap2 s) (heap1 s) (frame_text s) (ax_texts s)
          (idx_counter s) v (scat s) (ax s).
Definition with_scat (p : option PathCollection) (s : state) : state :=
  mkState (self s) (heap2 s) (heap1 s) (frame_text s) (ax_texts s)
          (idx_counter s) (c s) p (ax s).
Definition with_ax (a : Axes) (s : state) : state :=
  mkState (self s) (heap2 s) (heap1 s) (frame_text s) (ax_texts s)
          (idx_counter s) (c s) (scat s) a.

(** *** The monad of a method body *)

Definition M (A : Type) : Type := state -> outcome A * state.

Definition ret {A} (a : A) : M A := fun s => (Ok a, s).
Definition bind {A B} (m : M A) (k : A -> M B) : M B :=
  fun s => match m s with
           | (Ok a, s') => k a s'
           | (Raise e, s') => (Raise e, s')
           end.
Definition get : M state := fun s => (Ok s, s).
Definition modify (f : state -> state) : M unit := fun s => (Ok tt, f s).
Definition lift {A} (o : outcome A) : M A := fun s => (o, s).

Notation "'let!' x ':=' m 'in' k" := (bind m (fun x => k))
  (at level 10, x name, m at level 100, k at level 200,
   format "'[v' 'let!'  x  ':='  m  'in' '/' k ']'").
Notation "'run!' m 'in' k" := (bind m (fun _ => k))
  (at level 10, m at level 100, k at level 200,
   format "'[v' 'run!'  m  'in' '/' k ']'").

Definition when (b : bool) (m : M unit) : M unit :=
  if b then m else ret tt.

(** [for x in l: body(x)]. *)
Fixpoint for_each {A} (l : list A) (body : A -> M unit) : M unit :=
  match l with
  | [] => ret tt
  | x :: l' => run! body x in for_each l' body
  end.

(** Reading the arrays behind a reference. *)
Definition deref2 (l : loc) : M arr2 :=
  fun s => match heap2 s !! l with
           | Some a => (Ok a, s)
           | None => (Raise Dangling, s)
           end.
Definition deref1 (l : loc) : M arr1 :=
  fun s => match heap1 s !! l with
           | Some a => (Ok a, s)
           | None => (Raise Dangling, s)
           end.

(** A numpy operation that returns a new array: it is stored behind all
    existing ones. *)
Definition alloc2 (a : arr2) : M loc :=
  fun s => (Ok (length (heap2 s)), with_heap2 (heap2 s ++ [a]) s).

(** An in-place write to the array at [l]. *)
Definition store2 (l : loc) (a : arr2) : M unit :=
  fun s => if Nat.ltb l (length (heap2 s))
           then (Ok tt, with_heap2 (<[l := a]> (heap2 s)) s)
           else (Raise Dangling, s).

(** *** [__init__] (lines 37-85)

    The caller's arrays are already in the heaps [h2] and [h1]; [a] holds
    the arguments. No attribute of [initScat] exists yet and the axes are
    empty. This is the object once the constructor has returned: that
    pyplot and [FuncAnimation] accept their arguments ([FuncAnimation]
    raises [OverflowError] on a frame range of 2^63 elements or more) is
    not modelled. *)
Definition __init__ (h2 : list arr2) (h1 : list arr1) (a : args) : state :=
  let framedelta := paused a + animated a in
  let numframes := framedelta * Z.of_nat (length (position a)) in
  {| self := {| given := a;
                framedelta := framedelta;
                numframes := numframes;
                fig := mkFigure (figsize a) (axis a) (title a) (xlabel a)
                                (ylabel a) (fontsize a);
                anim_frames := range framedelta numframes;
                anim_repeat := repeat_ a |};
     heap2 := h2; heap1 := h1;
     frame_text := None; ax_texts := None; idx_counter := None;
     c := None; scat := None;
     ax := mkAxes [] [] [] |}.

(** *** [initScat] (lines 87-124) *)

(** [self.ax_texts.append(t)]. *)
Definition append_ax_text (t : option Text) : M unit :=
  let! s := get in
  let! txts := lift (attribute (ax_texts s)) in
  modify (with_ax_texts (Some (txts ++ [t]))).

(** [func( *params)] for one entry of [helpers]. *)
Definition call_helper (h : helper) : M unit :=
  let! s := get in
  let! a := lift (h (ax s)) in
  modify (with_ax a).

(** Lines 93-99, the body of the loop over [enumerate(self.text_labels)]. *)
Definition init_label (i : Z) : M unit :=
  let! s := get in
  let! szs := lift (subscriptable (sizes s)) in
  let! l0 := lift (index szs 0) in
  let! s0 := deref1 l0 in
  let! si := lift (index s0 i) in
  if gt si (threshold s) then
    let! p0 := lift (index (position s) 0) in
    let! a0 := deref2 p0 in
    let! x := lift (index (T0 a0) i) in
    let! y := lift (index (T1 a0) i) in
    let! tl := lift (subscriptable (text_labels s)) in
    let! lbl := lift (index tl i) in
    append_ax_text (Some (mkText (x, y) (Str lbl) None))
  else
    append_ax_text None.

(** The arguments shared by the two [scatter] calls of lines 115-121:
    [position[0].T[0]], [position[0].T[1]], [self.c] and [self.sizes[0]],
    evaluated in this order. *)
Definition scatter_args : M (arr1 * arr1 * option (list Z) * arr1) :=
  let! s := get in
  let! p0 := lift (index (position s) 0) in
  let! a0 := deref2 p0 in
  let! cv := lift (attribute (c s)) in
  let! szs := lift (subscriptable (sizes s)) in
  let! l0 := lift (index szs 0) in
  let! s0 := deref1 l0 in
  ret (T0 a0, T1 a0, cv, s0).

Definition initScat : M unit :=
  let! s := get in
  (* 88-89: the caption, from text_labels[0] *)
  run! match frame_labels s with
       | Some _ =>
           let! tl := lift (subscriptable (text_labels s)) in
           let! lbl := lift (index tl 0) in
           modify (with_frame_text
                     (Some (mkText (frame_loc s) (Str lbl) (Some 24))))
       | None => ret tt
       end in
  (* 91-99: one label, or None, per entry of text_labels *)
  run! modify (with_ax_texts (Some [])) in
  run! match text_labels s with
       | Some tl => for_each (enumerate tl) (fun il => init_label il.1)
       | None => ret tt
       end in
  (* 101-103 *)
  run! match helpers s with
       | Some hs => for_each hs call_helper
       | None => ret tt
       end in
  (* 107-108 *)
  run! when (debug s)
         (modify (with_idx_counter
            (Some (mkText (0.25%float, 0.35%float) (Str "0") (Some 24))))) in
  (* 110-112 *)
  run! modify (with_c (Some None)) in
  run! when (colors s)
         (let! n := lift (len (text_labels s)) in
          modify (with_c (Some (Some (range 0 n))))) in
  (* 115-117: the animated scatter *)
  let! a := scatter_args in
  let '(x, y, cv, s0) := a in
  run! modify (with_scat
                 (Some (scatter x y cv (cmap s) s0 true 0.8%float (Some "k")))) in
  (* 120-121: the shadow *)
  when (shadows s)
    (let! a := scatter_args in
     let '(x, y, cv, s0) := a in
     let! s' := get in
     modify (with_ax
               (add_collection
                  (scatter x y cv (cmap s) s0 false 0.25%float None) (ax s')))).

(** *** [update] (lines 126-171) *)

(** Lines 137-142: the connecting lines. *)
Definition draw_lines : M unit :=
  let! s := get in
  let! szs := lift (subscriptable (sizes s)) in
  let! l0 := lift (index szs 0) in
  let! s0 := deref1 l0 in
  let idx := gt_scalar s0 (threshold s) in
  let! p0 := lift (index (position s) 0) in
  let! a0 := deref2 p0 in
  let! a := lift (getmask a0 idx) in
  let! pl := lift (index (position s) (-1)) in
  let! al := deref2 pl in
  let! b := lift (getmask al idx) in
  modify (fun s' =>
    with_ax (add_lines
               (zip_with (fun ar br => mkLine2D (ar.1, br.1) (ar.2, br.2)) a b)
               (ax s')) s').

(** Lines 151-155: the interpolated offsets, built in a new array whose
    location is returned. *)
Definition interpolate (i next_idx prev_idx : Z) : M loc :=
  let! s := get in
  (* 151 *)
  let! ln := lift (index (position s) next_idx) in
  let! an := deref2 ln in
  let! lp := lift (index (position s) prev_idx) in
  let! ap := deref2 lp in
  let! d := lift (broadcast PrimFloat.sub an ap) in
  let! offset_delta := alloc2 d in
  (* 152 *)
  let! lp := lift (index (position s) prev_idx) in
  let! ap := deref2 lp in
  let! d := deref2 offset_delta in
  let! r := lift (modulo i (framedelta s)) in
  let step := div_scalar (mul_scalar d (of_int (r - paused s)))
                         (of_int (animated s)) in
  let! o := lift (broadcast PrimFloat.add ap step) in
  let! offset := alloc2 o in
  (* 154 *)
  let! d := deref2 offset_delta in
  let offset_idx := mask_or (gt_scalar (T0 (absolute d)) 0.25%float)
                            (gt_scalar (T1 (absolute d)) 0.25%float) in
  (* 155 *)
  let! ln := lift (index (position s) next_idx) in
  let! an := deref2 ln in
  let! vals := lift (getmask an offset_idx) in
  let! o := deref2 offset in
  let! o' := lift (setmask o offset_idx vals) in
  run! store2 offset o' in
  ret offset.

(** Lines 164-166, the body of the loop over [range(len(text_labels))]. *)
Definition move_label (offset : loc) (j : Z) : M unit :=
  let! s := get in
  let! txts := lift (attribute (ax_texts s)) in
  let! t := lift (index txts j) in
  match t with
  | Some txt =>
      let! o := deref2 offset in
      let! r := lift (index o j) in
      modify (with_ax_texts
                (Some (<[Z.to_nat j := Some (set_position r txt)]> txts)))
  | None => ret tt
  end.

(** The attribute name [__sizes] written inside the class body is mangled
    by Python to this one. *)
Definition mangled_sizes : string := "_ScatterAnimation__sizes".

Definition update (i : Z) : M unit :=
  let! s := get in
  (* 128-129 *)
  let! next_idx := lift (floordiv i (framedelta s)) in
  let prev_idx := next_idx - 1 in
  (* 135-142 *)
  run! when (lines s) (when (i =? numframes s - 1) draw_lines) in
  (* 144-145 *)
  run! when (debug s)
         (let! s' := get in
          let! t := lift (attribute (idx_counter s')) in
          modify (with_idx_counter (Some (set_text (Int i) t)))) in
  (* 148-149 *)
  let! r := lift (modulo i (framedelta s)) in
  if r <? paused s then
    let! s' := get in
    let! _ := lift (attribute (scat s')) in
    ret tt
  else
  (* 151-155 *)
  let! offset := interpolate i next_idx prev_idx in
  (* 157 *)
  let! szs := lift (subscriptable (sizes s)) in
  let! sizes_ref := lift (index szs next_idx) in
  (* 158 *)
  run! (let! s' := get in
        let! sc := lift (attribute (scat s')) in
        let! o := deref2 offset in
        modify (with_scat (Some (set_offsets o sc)))) in
  (* 160-161 *)
  run! match frame_labels s with
       | Some fl =>
           let! s' := get in
           let! t := lift (attribute (frame_text s')) in
           let! lbl := lift (index fl next_idx) in
           modify (with_frame_text (Some (set_text (Str lbl) t)))
       | None => ret tt
       end in
  (* 163-166 *)
  run! match text_labels s with
       | Some tl =>
           for_each (range 0 (Z.of_nat (length tl))) (move_label offset)
       | None => ret tt
       end in
  (* 168-169 *)
  match sizes s with
  | Some _ =>
      let! s' := get in
      let! sc := lift (attribute (scat s')) in
      modify (with_scat (Some (setattr mangled_sizes sizes_ref sc)))
  | None => ret tt
  end.

(** *** The animation driver

    [FuncAnimation] calls [init_func] and then [update] once per element
    of [frames], in order; an exception stops the pass. *)
Definition run_frames (fs : list Z) : M unit := for_each fs update.

Definition play : M unit :=
  run! initScat in
  let! s := get in
  run_frames (anim_frames s).

End ScatterAnimation.

Import ScatterAnimation.

(** * Vocabulary of the properties

    The definitions the statements below are written with: the formulas of
    the specification, the readings of a state, the relations between the
    states before and after a call, and the inputs of the scenarios. *)

(** ** Readings of a state *)

(** The snapshot [self.position[k]], read through the heap. *)
Definition snapshot (s : state) (k : Z) : option arr2 :=
  match index (position s) k with
  | Ok l => heap2 s !! l
  | Raise _ => None
  end.

(** [self.sizes[k]], read through the heap. *)
Definition size_snapshot (s : state) (k : Z) : option arr1 :=
  match sizes s with
  | Some szs =>
      match index szs k with
      | Ok l => heap1 s !! l
      | Raise _ => None
      end
  | None => None
  end.

(** ** The formulas of the specification *)

(** The [float64] nearest to the integer [z], ties to even: the rounding
    of IEEE 754 as the Standard Library specifies it. *)
Definition nearest_float64 (z : Z) : float64 :=
  SF2Prim (binary_normalize prec emax z 0 false).

(** The linear blend of one coordinate at local step [t] of [k]:
    [p + (n - p) * t / k], with the operations of [float64] in the order
    the source applies them. *)
Definition lerp (t k : float64) (p n : float64) : float64 :=
  PrimFloat.add p (PrimFloat.div (PrimFloat.mul (PrimFloat.sub n p) t) k).

(** The absolute delta of one coordinate between two snapshots. *)
Definition abs_delta (p n : float64) : float64 :=
  PrimFloat.abs (PrimFloat.sub n p).

(** A point moved far: its absolute x-delta or y-delta exceeds 0.25. *)
Definition far (p n : row) : bool :=
  gt (abs_delta p.1 n.1) 0.25%float || gt (abs_delta p.2 n.2) 0.25%float.

(** The position shown for a point going from [p] to [n]. *)
Definition blend (t k : float64) (p n : row) : row :=
  if far p n then n else (lerp t k p.1 n.1, lerp t k p.2 n.2).

(** One line per point whose frame-0 size exceeds the threshold, from its
    position in the first snapshot to its position in the last. *)
Fixpoint segments (thr : float64) (a0 al : arr2) (s0 : arr1) : list Line2D :=
  match a0, al, s0 with
  | p :: a0', q :: al', z :: s0' =>
      if gt z thr
      then mkLine2D (p.1, q.1) (p.2, q.2) :: segments thr a0' al' s0'
      else segments thr a0' al' s0'
  | _, _, _ => []
  end.

(** The connecting lines of an animation, and those frame [i] adds. *)
Definition connecting_lines (s : state) : list Line2D :=
  match snapshot s 0, snapshot s (-1), size_snapshot s 0 with
  | Some a0, Some al, Some s0 => segments (threshold s) a0 al s0
  | _, _, _ => []
  end.

Definition lines_at (s : state) (i : Z) : list Line2D :=
  if lines s && (i =? numframes s - 1) then connecting_lines s else [].

(** A label slot after lines 165-166 for point [k]: a label moves to the
    new offset of its point, an empty slot stays empty. *)
Definition move_slot (o : arr2) (k : nat) (slot : option Text) : option Text :=
  match slot, o !! k with
  | Some t, Some r => Some (set_position r t)
  | _, _ => slot
  end.

Definition moved_labels (o : arr2) (txts : list (option Text)) : list (option Text) :=
  imap (move_slot o) txts.

(** The label slot that lines 93-99 append for point [k] with label
    [lbl]: a label at the frame-0 position of the point when its frame-0
    size exceeds the threshold, [None] otherwise. *)
Definition label_slot (thr : float64) (a0 : arr2) (s0 : arr1) (k : nat)
    (lbl : string) : option Text :=
  match s0 !! k, a0 !! k with
  | Some z, Some p => if gt z thr then Some (mkText p (Str lbl) None) else None
  | _, _ => None
  end.

Definition label_slots (thr : float64) (a0 : arr2) (s0 : arr1)
    (tl : list string) : list (option Text) :=
  imap (label_slot thr a0 s0) tl.

(** The scatter created at lines 115-117 and the shadow of lines 120-121,
    from the first snapshot [a0], the colour indices [cv] and the first
    size array [s0]. *)
Definition main_scatter (s : state) (a0 : arr2) cv (s0 : arr1) : PathCollection :=
  scatter (T0 a0) (T1 a0) cv (cmap s) s0 true 0.8%float (Some "k").
Definition shadow_scatter (s : state) (a0 : arr2) cv (s0 : arr1) : PathCollection :=
  scatter (T0 a0) (T1 a0) cv (cmap s) s0 false 0.25%float None.

(** The caption after lines 88-89, the colour index after lines 110-112
    and the whole state [initScat] leaves, from the first snapshot [a0] and
    the first size array [s0]. *)
Definition first_caption (s : state) : option Text :=
  match frame_labels s, text_labels s with
  | Some _, Some (lbl :: _) => Some (mkText (frame_loc s) (Str lbl) (Some 24))
  | _, _ => frame_text s
  end.

Definition color_index (s : state) : option (list Z) :=
  if colors s
  then match text_labels s with
       | Some tl => Some (range 0 (Z.of_nat (length tl)))
       | None => None
       end
  else None.

Definition initialized (s : state) (a0 : arr2) (s0 : arr1) : state :=
  let s1 := with_frame_text (first_caption s) s in
  let s2 := with_ax_texts
              (Some (match text_labels s with
                     | Some tl => label_slots (threshold s) a0 s0 tl
                     | None => []
                     end)) s1 in
  let s3 := with_idx_counter
              (if debug s
               then Some (mkText (0.25%float, 0.35%float) (Str "0") (Some 24))
               else idx_counter s) s2 in
  let s4 := with_c (Some (color_index s)) s3 in
  let s5 := with_scat (Some (main_scatter s a0 (color_index s) s0)) s4 in
  if shadows s
  then with_ax (add_collection (shadow_scatter s a0 (color_index s) s0) (ax s5)) s5
  else s5.

(** ** Well-shaped states

    The data-model invariants of the animation once [initScat] has run:
    [n] points in every snapshot, as many size arrays and captions as
    snapshots, one label slot per text label, the attributes that [update]
    reads in place, and the frame counts of [__init__]. [shaped] decides
    them; [Shaped] states them. *)

Definition arrays_ok {A} (h : list (list A)) (n : nat) (ls : list loc) : bool :=
  forallb (fun l => match h !! l with
                    | Some a => Nat.eqb (length a) n
                    | None => false
                    end) ls.

Definition shaped (n : nat) (s : state) : bool :=
  negb (Nat.eqb (length (position s)) 0)
  && arrays_ok (heap2 s) n (position s)
  && match sizes s with
     | Some szs =>
         Nat.eqb (length szs) (length (position s)) && arrays_ok (heap1 s) n szs
     | None => false
     end
  && match frame_labels s with
     | Some fl =>
         Nat.eqb (length fl) (length (position s))
         && match frame_text s with Some _ => true | None => false end
     | None => true
     end
  && match text_labels s with
     | Some tl =>
         match ax_texts s with
         | Some txts => Nat.eqb (length txts) (length tl) && Nat.leb (length tl) n
         | None => false
         end
     | None => true
     end
  && match scat s with Some _ => true | None => false end
  && (negb (debug s) || match idx_counter s with Some _ => true | None => false end)
  && (numframes s =? framedelta s * Z.of_nat (length (position s)))
  && bool_decide (anim_frames s = range (framedelta s) (numframes s)).

Record Shaped (n : nat) (s : state) : Prop := {
  sh_nonempty : (0 < length (position s))%nat;
  sh_position : forall k l, position s !! k = Some l ->
                exists a, heap2 s !! l = Some a /\ length a = n;
  sh_sizes : exists szs, sizes s = Some szs /\ length szs = length (position s) /\
             forall k l, szs !! k = Some l ->
             exists a, heap1 s !! l = Some a /\ length a = n;
  sh_caption : forall fl, frame_labels s = Some fl ->
               length fl = length (position s) /\ exists t, frame_text s = Some t;
  sh_labels : forall tl, text_labels s = Some tl ->
              exists txts, ax_texts s = Some txts /\ length txts = length tl /\
                           (length tl <= n)%nat;
  sh_scat : exists sc, scat s = Some sc;
  sh_debug : debug s = true -> exists t, idx_counter s = Some t;
  sh_numframes : numframes s = framedelta s * Z.of_nat (length (position s));
  sh_frames : anim_frames s = range (framedelta s) (numframes s);
}.

(** The frame counts fit 64-bit integers, with room for the step
    [i mod framedelta - paused] of any frame [i]: every int that [update]
    converts to [float64] is then a 64-bit one. *)
Definition ints_fit (s : state) : bool :=
  (Z.abs (framedelta s) <? 2 ^ 62)
  && (Z.abs (paused s) <? 2 ^ 62)
  && (Z.abs (animated s) <? 2 ^ 63).

(** Inputs that matplotlib and numpy accept. With colours, one text label
    per point and the default colour map: the colour index has then one
    entry per point, as [scatter] demands, and no colour map name has to
    be known. A frame range of fewer than 2^63 elements, which
    [FuncAnimation] demands. Frame counts within 64-bit integers. *)
Definition accepted (n : nat) (s : state) : bool :=
  (negb (colors s)
   || (match text_labels s with
       | Some tl => Nat.eqb (length tl) n
       | None => false
       end
       && match cmap s with Some _ => false | None => true end))
  && (numframes s - framedelta s <? 2 ^ 63)
  && ints_fit s.

(** Inputs on which [initScat] is bound to succeed: [n] points in each of
    the snapshots and of the size arrays, one size array and one caption
    per snapshot, at most [n] text labels, text labels whenever captions or
    colours are asked for (lines 89 and 112 read them), no draw hooks, the
    frame counts of [__init__], and arguments that matplotlib and numpy
    accept. *)
Definition well_formed (n : nat) (s : state) : bool :=
  negb (Nat.eqb (length (position s)) 0)
  && arrays_ok (heap2 s) n (position s)
  && match sizes s with
     | Some szs =>
         Nat.eqb (length szs) (length (position s)) && arrays_ok (heap1 s) n szs
     | None => false
     end
  && match frame_labels s with
     | Some fl =>
         Nat.eqb (length fl) (length (position s))
         && match text_labels s with Some (_ :: _) => true | _ => false end
     | None => true
     end
  && match text_labels s with
     | Some tl => Nat.leb (length tl) n
     | None => negb (colors s)
     end
  && match helpers s with Some _ => false | None => true end
  && (numframes s =? framedelta s * Z.of_nat (length (position s)))
  && bool_decide (anim_frames s = range (framedelta s) (numframes s))
  && accepted n s.

(** ** Relations between the state before and the state after *)

(** [steps R m]: whatever the outcome of [m], exception or not, the state
    it ends in is related by [R] to the state it started in. *)
Definition steps (R : relation state) {A} (m : M A) : Prop :=
  forall s, R s (m s).2.

(** [m] always raises, and relates the state it stops in to the one it
    started in. *)
Definition raises_keeping (R : relation state) {A} (m : M A) : Prop :=
  forall s, (exists e, (m s).1 = Raise e) /\ R s (m s).2.

(** The inputs are kept: the object fields, the size arrays and every
    position array that existed before are the same afterwards; only new
    arrays appear. *)
Record inputs_kept (s s' : state) : Prop := {
  kept_self : self s' = self s;
  kept_heap1 : heap1 s' = heap1 s;
  kept_heap2 : heap2 s `prefix_of` heap2 s';
}.

(** The object and both heaps are the same. *)
Definition heaps_same (s s' : state) : Prop :=
  self s' = self s /\ heap1 s' = heap1 s /\ heap2 s' = heap2 s.

(** The object and the scatter are the same. *)
Definition scat_kept (s s' : state) : Prop :=
  self s' = self s /\ scat s' = scat s.

(** What [update] keeps of a well-shaped state: the inputs, and the
    existence of the artists it reads, with as many label slots. *)
Record evolves (s s' : state) : Prop := {
  ev_inputs : inputs_kept s s';
  ev_frame_text : is_Some (frame_text s) -> is_Some (frame_text s');
  ev_ax_texts : forall t, ax_texts s = Some t ->
                exists t', ax_texts s' = Some t' /\ length t' = length t;
  ev_idx_counter : is_Some (idx_counter s) -> is_Some (idx_counter s');
  ev_scat : is_Some (scat s) -> is_Some (scat s');
}.

(** Two label slots that differ at most in the position of the label: both
    empty, or labels with the same text and font size. *)
Definition same_label (a b : option Text) : Prop :=
  match a, b with
  | None, None => True
  | Some t, Some t' => text_s t' = text_s t /\ text_fontsize t' = text_fontsize t
  | _, _ => False
  end.

(** Everything the figure shows besides the debug counter and the
    connecting lines is the same, and so are the object and the heaps. *)
Record display_kept (s s' : state) : Prop := {
  dk_self : self s' = self s;
  dk_heap1 : heap1 s' = heap1 s;
  dk_heap2 : heap2 s' = heap2 s;
  dk_frame_text : frame_text s' = frame_text s;
  dk_ax_texts : ax_texts s' = ax_texts s;
  dk_scat : scat s' = scat s;
  dk_c : c s' = c s;
  dk_collections : ax_collections (ax s') = ax_collections (ax s);
}.

(** The label slots differ at most in the positions of the labels. *)
Definition labels_kept (s s' : state) : Prop :=
  option_Forall2 (Forall2 same_label) (ax_texts s) (ax_texts s').

(** The debug counter differs at most in its text. *)
Definition counter_kept (s s' : state) : Prop :=
  option_Forall2 (fun t t' => text_xy t' = text_xy t /\
                              text_fontsize t' = text_fontsize t)
                 (idx_counter s) (idx_counter s').

(** The sizes the scatter shows are the same. *)
Definition shown_sizes_kept (s s' : state) : Prop :=
  (pc_sizes <$> scat s') = (pc_sizes <$> scat s).

(** ** The states [update] reaches *)

(** The state after lines 135-142 and after lines 144-145 of frame [i]. *)
Definition after_lines (i : Z) (s : state) : state :=
  with_ax (if lines s && (i =? numframes s - 1)
           then add_lines (connecting_lines s) (ax s)
           else ax s) s.

Definition after_debug (i : Z) (s : state) : state :=
  with_idx_counter (if debug s
                    then set_text (Int i) <$> idx_counter s
                    else idx_counter s) s.

(** The state after lines 151-169 of an interpolation frame, from the state
    [s2] reached at line 149: two new arrays, new offsets and a new entry
    in the dictionary of the scatter, a caption and label slots. *)
Definition after_move (d o : arr2) (sc : PathCollection) (sizes_ref : loc)
    (ft : option Text) (txts : option (list (option Text))) (s2 : state) : state :=
  with_scat (Some (setattr mangled_sizes sizes_ref (set_offsets o sc)))
    (with_ax_texts txts
       (with_frame_text ft
          (with_heap2 (heap2 s2 ++ [d; o]) s2))).

(** ** Calls on the object *)

(** A call the animation driver, or anyone else, makes on the object. *)
Inductive call : Type :=
| CallInitScat
| CallUpdate (i : Z).

Definition perform (c : call) : M unit :=
  match c with
  | CallInitScat => initScat
  | CallUpdate i => update i
  end.

(** ** Scenarios

    Concrete animations, built by [__init__] from the caller's arrays and,
    where the name does not end in [_input], started by [initScat]. All
    have two snapshots, [paused = 1] and [animated = 2], hence six frames
    of which 3, 4 and 5 are driven: 3 is the pause frame and 4 and 5 are
    the interpolation frames of segment 1. *)

Definition two_frames (sizes : option (list loc)) : args :=
  {| position := [0%nat; 1%nat]; sizes := sizes; frame_labels := None;
     text_labels := None; animated := 2; paused := 1;
     threshold := 0%float; colors := false; cmap := None;
     shadows := false; lines := false;
     axis := [0%float; 1%float; 0%float; 1%float];
     title := None; xlabel := None; ylabel := None; repeat_ := true;
     fontsize := 16; frame_loc := (0%float, 0%float); figsize := None;
     debug := false; helpers := None |}.

(** [position = [[[0, 0]], [[0.1, 0.1]]]], [sizes = [[5], [5]]]. *)
Definition small_step : state :=
  (initScat (__init__ [[(0%float, 0%float)]; [(0.1%float, 0.1%float)]]
                      [[5%float]; [5%float]]
                      (two_frames (Some [0%nat; 1%nat])))).2.

(** [position = [[[0, 0]], [[1, 1]]]], [sizes = [[5], [9]]]. *)
Definition big_step : state :=
  (initScat (__init__ [[(0%float, 0%float)]; [(1%float, 1%float)]]
                      [[5%float]; [9%float]]
                      (two_frames (Some [0%nat; 1%nat])))).2.

(** [position = [[[0, 0], [0.5, 0.5]], [[1, 1], [0.5, 0.75]]]],
    [sizes = [[3, 7], [3, 7]]], [threshold = 5], [shadows = True],
    [lines = True]. *)
Definition two_points_input : state :=
  __init__ [[(0%float, 0%float); (0.5%float, 0.5%float)];
            [(1%float, 1%float); (0.5%float, 0.75%float)]]
           [[3%float; 7%float]; [3%float; 7%float]]
           {| position := [0%nat; 1%nat]; sizes := Some [0%nat; 1%nat];
              frame_labels := None; text_labels := None;
              animated := 2; paused := 1; threshold := 5%float;
              colors := false; cmap := None; shadows := true; lines := true;
              axis := [0%float; 1%float; 0%float; 1%float];
              title := None; xlabel := None; ylabel := None; repeat_ := true;
              fontsize := 16; frame_loc := (0%float, 0%float); figsize := None;
              debug := false; helpers := None |}.

Definition two_points : state := (initScat two_points_input).2.

(** [frame_labels = ["first", "second"]] and the given [text_labels], on
    the snapshots of [big_step]. *)
Definition captioned_input (text_labels : option (list string)) : state :=
  __init__ [[(0%float, 0%float)]; [(1%float, 1%float)]]
           [[5%float]; [9%float]]
           {| position := [0%nat; 1%nat]; sizes := Some [0%nat; 1%nat];
              frame_labels := Some ["first"; "second"];
              text_labels := text_labels;
              animated := 2; paused := 1; threshold := 0%float;
              colors := false; cmap := None; shadows := false; lines := false;
              axis := [0%float; 1%float; 0%float; 1%float];
              title := None; xlabel := None; ylabel := None; repeat_ := true;
              fontsize := 16; frame_loc := (0%float, 0%float); figsize := None;
              debug := false; helpers := None |}.

(** [colors=True] on the snapshots of [big_step], nothing else changed. *)
Definition colored_input : state :=
  __init__ [[(0%float, 0%float)]; [(1%float, 1%float)]]
           [[5%float]; [9%float]]
           {| position := [0%nat; 1%nat]; sizes := Some [0%nat; 1%nat];
              frame_labels := None; text_labels := None;
              animated := 2; paused := 1; threshold := 0%float;
              colors := true; cmap := None; shadows := false; lines := false;
              axis := [0%float; 1%float; 0%float; 1%float];
              title := None; xlabel := None; ylabel := None; repeat_ := true;
              fontsize := 16; frame_loc := (0%float, 0%float); figsize := None;
              debug := false; helpers := None |}.

(** [sizes=None] and every other argument at its default, on one snapshot
    of one point. *)
Definition default_input : state :=
  __init__ [[(0%float, 0%float)]] [] (defaults [0%nat]).

(** A single snapshot of one point, [position = [[[0, 0]]]],
    [sizes = [[5]]], with [lines = True] and [threshold = 0]. *)
Definition single_snapshot_input : state :=
  __init__ [[(0%float, 0%float)]] [[5%float]]
           {| position := [0%nat]; sizes := Some [0%nat];
              frame_labels := None; text_labels := None;
              animated := 2; paused := 1; threshold := 0%float;
              colors := false; cmap := None; shadows := false; lines := true;
              axis := [0%float; 1%float; 0%float; 1%float];
              title := None; xlabel := None; ylabel := None; repeat_ := true;
              fontsize := 16; frame_loc := (0%float, 0%float); figsize := None;
              debug := false; helpers := None |}.

(** The snapshots and sizes of [two_points_input] with
    [text_labels = ["a", "b"]], [frame_labels = ["first", "second"]],
    [threshold = 5] and [debug = True]. *)
Definition labelled_input : state :=
  __init__ [[(0%float, 0%float); (0.5%float, 0.5%float)];
            [(1%float, 1%float); (0.5%float, 0.75%float)]]
           [[3%float; 7%float]; [3%float; 7%float]]
           {| position := [0%nat; 1%nat]; sizes := Some [0%nat; 1%nat];
              frame_labels := Some ["first"; "second"];
              text_labels := Some ["a"; "b"];
              animated := 2; paused := 1; threshold := 5%float;
              colors := true; cmap := None; shadows := false; lines := false;
              axis := [0%float; 1%float; 0%float; 1%float];
              title := None; xlabel := None; ylabel := None; repeat_ := true;
              fontsize := 16; frame_loc := (0%float, 0%float); figsize := None;
              debug := true; helpers := None |}.

Definition labelled : state := (initScat labelled_input).2.

(** A first snapshot of two points and a second of three:
    [position = [[[0, 0], [1, 1]], [[0, 0], [1, 1], [2, 2]]]],
    [sizes = [[5, 5], [5, 5, 5]]]. *)
Definition ragged : state :=
  (initScat (__init__ [[(0%float, 0%float); (1%float, 1%float)];
                       [(0%float, 0%float); (1%float, 1%float); (2%float, 2%float)]]
                      [[5%float; 5%float]; [5%float; 5%float; 5%float]]
                      (two_frames (Some [0%nat; 1%nat])))).2.

(** One point and two text labels. *)
Definition overlabelled_input : state :=
  __init__ [[(0%float, 0%float)]; [(1%float, 1%float)]]
           [[5%float]; [9%float]]
           {| position := [0%nat; 1%nat]; sizes := Some [0%nat; 1%nat];
              frame_labels := None; text_labels := Some ["a"; "b"];
              animated := 2; paused := 1; threshold := 0%float;
              colors := false; cmap := None; shadows := false; lines := false;
              axis := [0%float; 1%float; 0%float; 1%float];
              title := None; xlabel := None; ylabel := None; repeat_ := true;
              fontsize := 16; frame_loc := (0%float, 0%float); figsize := None;
              debug := false; helpers := None |}.

(** * Properties *)

(** ** Python indexing and ranges *)

Section PyFacts.
Context {A : Type}.
Implicit Types (l : list A) (z : Z).

Lemma index_nonneg l z a :
  0 <= z -> l !! Z.to_nat z = Some a -> index l z = Ok a.
Proof.
  intros Hz Hl. unfold index.
  apply lookup_lt_Some in Hl as Hlt.
  replace (z <? 0) with false by (symmetry; apply Z.ltb_ge; lia).
  replace (z <? 0) with false by (symmetry; apply Z.ltb_ge; lia).
  replace (Z.of_nat (length l) <=? z) with false
    by (symmetry; apply Z.leb_gt; lia).
  simpl. now rewrite Hl.
Qed.

Lemma index_in_range l z :
  0 <= z < Z.of_nat (length l) -> exists a, index l z = Ok a /\ l !! Z.to_nat z = Some a.
Proof.
  intros Hz.
  destruct (lookup_lt_is_Some_2 l (Z.to_nat z)) as [a Ha]; [lia |].
  exists a. split; [apply index_nonneg; [lia | done] | done].
Qed.

(** Every index from [-len(l)] to [len(l) - 1] selects an element. *)
Lemma index_valid l z :
  - Z.of_nat (length l) <= z < Z.of_nat (length l) ->
  exists a k, index l z = Ok a /\ l !! k = Some a.
Proof.
  intros Hz. unfold index.
  set (k := if z <? 0 then Z.of_nat (length l) + z else z).
  assert (0 <= k < Z.of_nat (length l)) as Hk.
  { unfold k. destruct (Z.ltb_spec z 0); lia. }
  replace (k <? 0) with false by (symmetry; apply Z.ltb_ge; lia).
  replace (Z.of_nat (length l) <=? k) with false
    by (symmetry; apply Z.leb_gt; lia).
  simpl.
  destruct (lookup_lt_is_Some_2 l (Z.to_nat k)) as [a Ha]; [lia |].
  exists a, (Z.to_nat k). by rewrite Ha.
Qed.

End PyFacts.

Lemma range_length a b : length (range a b) = Z.to_nat (b - a).
Proof. unfold range. now rewrite length_map, length_seq. Qed.

Lemma elem_of_range a b i : i ∈ range a b <-> a <= i < b.
Proof.
  unfold range. rewrite list_elem_of_fmap. split.
  - intros (k & -> & Hk). apply elem_of_seq in Hk. lia.
  - intros Hi. exists (Z.to_nat (i - a)). split; [lia |].
    apply elem_of_seq. lia.
Qed.

Lemma range_snoc a b : a <= b -> range a (b + 1) = range a b ++ [b].
Proof.
  intros H. unfold range.
  replace (Z.to_nat (b + 1 - a)) with (S (Z.to_nat (b - a))) by lia.
  rewrite seq_S, map_app. simpl. f_equal. f_equal. lia.
Qed.

Lemma range_NoDup a b : NoDup (range a b).
Proof.
  unfold range. apply NoDup_fmap_2; [| apply NoDup_seq].
  intros x y H. lia.
Qed.

(** ** numpy array facts *)

Lemma binary_normalize_opp p :
  binary_normalize prec emax (Z.neg p) 0 false
  = SFopp (binary_normalize prec emax (Z.pos p) 0 false).
Proof.
  unfold binary_normalize, binary_round.
  destruct (shl_align _ _ _) as [mz ez].
  unfold binary_round_aux.
  destruct (shr_fexp _ _ _ _ _) as [mrs' e'].
  destruct (shr_fexp _ _ _ _ _) as [mrs'' e''].
  destruct (shr_m mrs'') as [| m | m]; simpl; try done.
  by destruct (e'' <=? emax - prec).
Qed.

(** The conversion of an int is the nearest [float64], whatever its
    size. *)
Lemma of_int_nearest z : of_int z = nearest_float64 z.
Proof.
  unfold of_int, nearest_float64.
  destruct ((- 2 ^ 63 <? z) && (z <? 2 ^ 63)) eqn:Hb; [| done].
  apply andb_true_iff in Hb as [H1%Z.ltb_lt H2%Z.ltb_lt].
  assert (forall n, 0 <= n < 2 ^ 63 ->
            binary_normalize prec emax n 0 false
            = Prim2SF (PrimFloat.of_uint63 (Uint63.of_Z n))) as Hpos.
  { intros n Hn. rewrite of_uint63_spec, Uint63.of_Z_spec.
    rewrite Z.mod_small; [done |]. change wB with (2 ^ 63). lia. }
  destruct (Z.ltb_spec z 0) as [Hneg | Hnn].
  - destruct z as [| p | p]; try lia.
    change (- Z.neg p) with (Z.pos p).
    rewrite binary_normalize_opp, (Hpos (Z.pos p)) by lia.
    rewrite <- FloatAxioms.opp_spec. by rewrite SF2Prim_Prim2SF.
  - rewrite Hpos by lia. by rewrite SF2Prim_Prim2SF.
Qed.

Lemma combine_columns (a : arr2) : combine (T0 a) (T1 a) = a.
Proof.
  unfold T0, T1. induction a as [| [x y] a IH]; simpl; [done |].
  now rewrite IH.
Qed.

Lemma broadcast_same f (a b : arr2) :
  length a = length b -> broadcast f a b = Ok (zip_with (row_map2 f) a b).
Proof. intros H. unfold broadcast. now rewrite H, Nat.eqb_refl. Qed.

Lemma getmask_same {A} (a : list A) mask :
  length a = length mask -> getmask a mask = Ok (select a mask).
Proof. intros H. unfold getmask. now rewrite H, Nat.eqb_refl. Qed.

Lemma select_length {A} (a : list A) mask :
  length a = length mask -> length (select a mask) = count_true mask.
Proof.
  unfold count_true. revert mask.
  induction a as [| x a IH]; intros [| b mask] H; simpl in *; try done.
  destruct b; simpl; rewrite IH; auto.
Qed.

Lemma setmask_select {A} (a v : list A) mask :
  length a = length mask -> length v = length mask ->
  setmask a mask (select v mask) = Ok (assign a mask (select v mask)).
Proof.
  intros Ha Hv. unfold setmask.
  rewrite Ha, Nat.eqb_refl. simpl.
  now rewrite (select_length v mask Hv), Nat.eqb_refl.
Qed.

(** Writing [v[mask]] into [a[mask]] takes the entry of [v] where the mask
    holds and keeps the entry of [a] elsewhere. *)
Lemma assign_select_zip {A B} (f : B -> B -> A) (g : B -> B -> bool) (h : B -> B -> A)
    (p n : list B) :
  length p = length n ->
  assign (zip_with f p n) (zip_with g p n) (select (zip_with h p n) (zip_with g p n))
  = zip_with (fun x y => if g x y then h x y else f x y) p n.
Proof.
  revert n. induction p as [| x p IH]; intros [| y n] H; simpl in *; try done.
  destruct (g x y); simpl; rewrite IH; auto.
Qed.

(** ** The interpolation of lines 151-155 *)

(** On [float64], [x <= y] excludes [x > y]. *)
Lemma SFcompare_antisym x y c :
  SFcompare x y = Some c -> SFcompare y x = Some (CompOpp c).
Proof.
  destruct x as [sx | sx | | sx mx ex], y as [sy | sy | | sy my ey]; simpl;
    try discriminate;
    try (intros [= <-]; try destruct sx; try destruct sy; reflexivity).
  intros [= <-]. f_equal.
  destruct sx, sy; simpl; try reflexivity.
  - rewrite (Z.compare_antisym ey ex).
    destruct (ey ?= ex)%Z; simpl; try reflexivity.
    f_equal. symmetry. apply (Pos.compare_cont_antisym mx my Eq).
  - rewrite (Z.compare_antisym ey ex).
    destruct (ey ?= ex)%Z; simpl; try reflexivity.
    symmetry. apply (Pos.compare_cont_antisym mx my Eq).
Qed.

Lemma leb_not_gt (x y : float64) : PrimFloat.leb x y = true -> gt x y = false.
Proof.
  unfold gt. rewrite FloatAxioms.leb_spec, FloatAxioms.ltb_spec. unfold SFleb, SFltb.
  destruct (SFcompare (Prim2SF x) (Prim2SF y)) as [c |] eqn:E; [| discriminate].
  rewrite (SFcompare_antisym _ _ _ E). destruct c; reflexivity || discriminate.
Qed.

Lemma near_not_far (p n : row) :
  PrimFloat.leb (abs_delta p.1 n.1) 0.25%float = true ->
  PrimFloat.leb (abs_delta p.2 n.2) 0.25%float = true ->
  far p n = false.
Proof. intros H1 H2. unfold far. by rewrite !leb_not_gt. Qed.

Lemma blend_arrays (t k : float64) (ap an : arr2) :
  length ap = length an ->
  let d := zip_with (row_map2 PrimFloat.sub) an ap in
  let o := zip_with (row_map2 PrimFloat.add) ap (div_scalar (mul_scalar d t) k) in
  let mask := mask_or (gt_scalar (T0 (absolute d)) 0.25%float)
                      (gt_scalar (T1 (absolute d)) 0.25%float) in
  length o = length an /\ length mask = length an /\
  assign o mask (select an mask) = zip_with (blend t k) ap an.
Proof.
  revert an. induction ap as [| p ap IH]; intros [| n an] H; simpl in *; try done.
  injection H as H. destruct (IH an H) as (Ho & Hm & Ha).
  split; [now rewrite <- Ho |]. split; [now rewrite <- Hm |].
  unfold blend at 1, far. simpl.
  destruct (gt _ _ || gt _ _); simpl; now rewrite <- Ha.
Qed.

Lemma snapshot_inv (s : state) k a :
  snapshot s k = Some a ->
  exists l, index (position s) k = Ok l /\ heap2 s !! l = Some a.
Proof.
  unfold snapshot. destruct (index _ _) as [l |]; [| discriminate]. eauto.
Qed.

Lemma interpolate_ok (s : state) i ni pi ap an :
  framedelta s <> 0 ->
  snapshot s ni = Some an ->
  snapshot s pi = Some ap ->
  length ap = length an ->
  interpolate i ni pi s =
    (Ok (S (length (heap2 s))),
     with_heap2
       (heap2 s ++ [zip_with (row_map2 PrimFloat.sub) an ap;
                    zip_with (blend (of_int (i mod framedelta s - paused s))
                                    (of_int (animated s))) ap an]) s).
Proof.
  intros Hfd (ln & Hln & Han)%snapshot_inv (lp & Hlp & Hap)%snapshot_inv Hlen.
  destruct (blend_arrays (of_int (i mod framedelta s - paused s))
              (of_int (animated s)) ap an Hlen) as (Ho & Hm & Ha).
  unfold interpolate, bind, get, lift, deref2, alloc2, store2, ret, modulo.
  simpl. rewrite Hln, Han, Hlp, Hap. simpl.
  rewrite (broadcast_same _ an ap) by done. simpl.
  rewrite (lookup_app_l _ _ lp) by (eapply lookup_lt_Some; eauto).
  rewrite Hap. simpl. rewrite list_lookup_middle by done.
  apply Z.eqb_neq in Hfd. rewrite Hfd.
  rewrite broadcast_same.
  2:{ unfold div_scalar, mul_scalar. rewrite !length_map, length_zip_with. lia. }
  simpl.
  rewrite <- (assoc_L (++)). simpl.
  rewrite (list_lookup_middle (heap2 s) _ _ (length (heap2 s))) by done.
  simpl.
  rewrite (lookup_app_l _ _ ln) by (eapply lookup_lt_Some; eauto).
  rewrite Han. simpl.
  rewrite getmask_same by (now rewrite Hm). simpl.
  rewrite length_app. simpl.
  rewrite (lookup_app_r (heap2 s)) by lia.
  replace (length (heap2 s) + 1 - length (heap2 s))%nat with 1%nat by lia.
  simpl.
  rewrite setmask_select by (rewrite ?Ho, ?Hm; done).
  rewrite Ha. simpl.
  rewrite length_app. simpl.
  replace (length (heap2 s) + 1 <? length (heap2 s) + 2)%nat with true
    by (symmetry; apply Nat.ltb_lt; lia).
  simpl.
  replace (length (heap2 s) + 1)%nat with (S (length (heap2 s))) by lia.
  f_equal. unfold with_heap2; simpl. f_equal.
  rewrite insert_app_r_alt by lia.
  replace (S (length (heap2 s)) - length (heap2 s))%nat with 1%nat by lia.
  done.
Qed.

(** ** Running a method body *)

Lemma bind_run {A B} (m : M A) (k : A -> M B) (s s1 : state) (a : A) :
  m s = (Ok a, s1) -> bind m k s = k a s1.
Proof. intros H. unfold bind. now rewrite H. Qed.

Lemma lift_run {A} (o : outcome A) (a : A) (s : state) :
  o = Ok a -> lift o s = (Ok a, s).
Proof. now intros ->. Qed.

Lemma deref2_run (s : state) l a :
  heap2 s !! l = Some a -> deref2 l s = (Ok a, s).
Proof. intros H. unfold deref2. now rewrite H. Qed.

Lemma deref1_run (s : state) l a :
  heap1 s !! l = Some a -> deref1 l s = (Ok a, s).
Proof. intros H. unfold deref1. now rewrite H. Qed.

(** *** What a method may change *)

Section Steps.
Context (R : relation state) `{!PreOrder R}.

Lemma steps_ret {A} (a : A) : steps R (ret a).
Proof. intros s. simpl. reflexivity. Qed.

Lemma steps_get : steps R get.
Proof. intros s. simpl. reflexivity. Qed.

Lemma steps_lift {A} (o : outcome A) : steps R (lift o).
Proof. intros s. simpl. reflexivity. Qed.

Lemma steps_deref2 l : steps R (deref2 l).
Proof. intros s. unfold deref2. destruct (heap2 s !! l); simpl; reflexivity. Qed.

Lemma steps_deref1 l : steps R (deref1 l).
Proof. intros s. unfold deref1. destruct (heap1 s !! l); simpl; reflexivity. Qed.

Lemma steps_modify (f : state -> state) :
  (forall s, R s (f s)) -> steps R (modify f).
Proof. intros H s. simpl. apply H. Qed.

Lemma steps_bind {A B} (m : M A) (k : A -> M B) :
  steps R m -> (forall a, steps R (k a)) -> steps R (bind m k).
Proof.
  intros Hm Hk s. unfold bind. specialize (Hm s).
  destruct (m s) as [[a | e] s1]; simpl in *; [| done].
  etransitivity; [exact Hm | apply Hk].
Qed.

Lemma steps_when (b : bool) (m : M unit) : steps R m -> steps R (when b m).
Proof. intros H. destruct b; simpl; [done | apply steps_ret]. Qed.

Lemma steps_for_each {A} (l : list A) (body : A -> M unit) :
  (forall x, steps R (body x)) -> steps R (for_each l body).
Proof.
  intros H. induction l as [| x l IH]; simpl; [apply steps_ret |].
  apply steps_bind; [apply H | intros _; apply IH].
Qed.
End Steps.

(** The skeleton of a body: sequencing, branches and loops. *)
Ltac steps_skeleton R leaf :=
  repeat first
    [ leaf
    | apply (steps_ret R) | apply (steps_get R) | apply (steps_lift R)
    | apply (steps_deref2 R) | apply (steps_deref1 R)
    | apply (steps_when R)
    | apply (steps_for_each R); intros ?
    | apply (steps_bind R); [| intros ?]
    | match goal with
      | |- steps _ (match ?x with _ => _ end) => destruct x
      end ].

(** *** The inputs are kept *)

#[local] Instance inputs_kept_preorder : PreOrder inputs_kept.
Proof.
  split.
  - intros s. by split.
  - intros s1 s2 s3 [H1 H2 H3] [H1' H2' H3']. split.
    + by rewrite H1'.
    + by rewrite H2'.
    + by etransitivity.
Qed.

Lemma inputs_kept_lookup (s s' : state) l a :
  inputs_kept s s' -> heap2 s !! l = Some a -> heap2 s' !! l = Some a.
Proof. intros [_ _ H] Hl. eapply prefix_lookup_Some; eauto. Qed.

(** Case analysis on an innermost [match] of the goal. *)
Ltac case_inner :=
  match goal with
  | |- context [match ?x with _ => _ end] =>
      lazymatch x with
      | context [match _ with _ => _ end] => fail
      | _ => destruct x eqn:?
      end
  end.

(** [interpolate] only appends to the heap: its masked write goes to the
    array it has just allocated. *)
Lemma interpolate_appends i ni pi (s : state) :
  exists ext, (interpolate i ni pi s).2 = with_heap2 (heap2 s ++ ext) s.
Proof.
  unfold interpolate, bind, get, lift, deref2, alloc2, store2, ret.
  simpl.
  repeat (case_inner; simpl);
    try (by exists []; destruct s; unfold with_heap2; simpl; rewrite app_nil_r);
    try (by eexists [_]);
    try (by eexists [_; _]; unfold with_heap2; simpl; rewrite <- (assoc_L (++))).
  eexists [_; _]. unfold with_heap2. simpl. f_equal.
  rewrite insert_app_r_alt by lia.
  rewrite Nat.sub_diag. simpl. by rewrite <- (assoc_L (++)).
Qed.

Lemma steps_interpolate_inputs i ni pi : steps inputs_kept (interpolate i ni pi).
Proof.
  intros s. destruct (interpolate_appends i ni pi s) as [ext ->].
  split; simpl; [done | done | by apply prefix_app_r].
Qed.

Lemma steps_modify_inputs (f : state -> state) :
  (forall s, self (f s) = self s) ->
  (forall s, heap1 (f s) = heap1 s) ->
  (forall s, heap2 (f s) = heap2 s) ->
  steps inputs_kept (modify f).
Proof.
  intros H1 H2 H3. apply steps_modify.
  intros s. split; [apply H1 | apply H2 | by rewrite H3].
Qed.

Ltac steps_inputs :=
  steps_skeleton inputs_kept
    ltac:(first [ apply steps_interpolate_inputs
                | apply steps_modify_inputs; intros; reflexivity ]).

Lemma steps_initScat_inputs : steps inputs_kept initScat.
Proof.
  unfold initScat, init_label, append_ax_text, call_helper, scatter_args.
  steps_inputs.
Qed.

Lemma steps_update_inputs i : steps inputs_kept (update i).
Proof.
  unfold update, draw_lines, move_label.
  steps_inputs.
Qed.

(** ** Well-shaped states *)

Lemma arrays_ok_lookup {A} (h : list (list A)) n ls k l :
  arrays_ok h n ls = true -> ls !! k = Some l ->
  exists a, h !! l = Some a /\ length a = n.
Proof.
  unfold arrays_ok. rewrite forallb_forall. intros H Hk.
  specialize (H l). rewrite <- list_elem_of_In in H.
  specialize (H (list_elem_of_lookup_2 _ _ _ Hk)).
  destruct (h !! l) as [a |]; [| discriminate].
  exists a. split; [done |]. by apply Nat.eqb_eq.
Qed.

Lemma shaped_Shaped n (s : state) : shaped n s = true -> Shaped n s.
Proof.
  unfold shaped. rewrite !andb_true_iff.
  intros ((((((((H1 & H2) & H3) & H4) & H5) & H6) & H7) & H8) & H9).
  split.
  - apply negb_true_iff, Nat.eqb_neq in H1. lia.
  - intros k l. by apply arrays_ok_lookup.
  - destruct (sizes s) as [szs |]; [| discriminate].
    apply andb_true_iff in H3 as [Ha Hb]. exists szs.
    split; [done |]. split; [by apply Nat.eqb_eq |].
    intros k l. by apply arrays_ok_lookup.
  - intros fl Hfl. rewrite Hfl in H4. apply andb_true_iff in H4 as [Ha Hb].
    split; [by apply Nat.eqb_eq |]. destruct (frame_text s); [eauto | discriminate].
  - intros tl Htl. rewrite Htl in H5.
    destruct (ax_texts s) as [txts |]; [| discriminate].
    apply andb_true_iff in H5 as [Ha Hb]. exists txts.
    split; [done |]. split; [by apply Nat.eqb_eq | by apply Nat.leb_le].
  - destruct (scat s); [eauto | discriminate].
  - intros Hd. rewrite Hd in H7. simpl in H7.
    destruct (idx_counter s); [eauto | discriminate].
  - by apply Z.eqb_eq.
  - by apply bool_decide_eq_true in H9.
Qed.

(** Snapshots of a well-shaped state. *)
Lemma Shaped_snapshot n (s : state) k :
  Shaped n s ->
  - Z.of_nat (length (position s)) <= k < Z.of_nat (length (position s)) ->
  exists a, snapshot s k = Some a /\ length a = n.
Proof.
  intros Hs Hk. destruct (index_valid (position s) k Hk) as (l & j & Hl & Hl').
  destruct (sh_position n s Hs _ _ Hl') as (a & Ha & Hn).
  exists a. unfold snapshot. by rewrite Hl.
Qed.

Lemma Shaped_snapshot_last n (s : state) :
  Shaped n s -> exists a, snapshot s (-1) = Some a /\ length a = n.
Proof.
  intros Hs. pose proof (sh_nonempty n s Hs). apply (Shaped_snapshot n); [done | lia].
Qed.

Lemma Shaped_size_snapshot n (s : state) k :
  Shaped n s ->
  - Z.of_nat (length (position s)) <= k < Z.of_nat (length (position s)) ->
  exists szs l a, sizes s = Some szs /\ index szs k = Ok l /\
                  heap1 s !! l = Some a /\ length a = n /\
                  size_snapshot s k = Some a.
Proof.
  intros Hs Hk. destruct (sh_sizes n s Hs) as (szs & Hsz & Hlen & Hall).
  destruct (index_valid szs k) as (l & j & Hl & Hl'); [lia |].
  destruct (Hall _ _ Hl') as (a & Ha & Hn). exists szs, l, a.
  repeat split; try done. unfold size_snapshot. by rewrite Hsz, Hl.
Qed.

(** ** The connecting lines of lines 137-142 *)

Lemma segments_select thr (a0 al : arr2) (s0 : arr1) :
  length a0 = length s0 -> length al = length s0 ->
  zip_with (fun ar br => mkLine2D (ar.1, br.1) (ar.2, br.2))
           (select a0 (gt_scalar s0 thr)) (select al (gt_scalar s0 thr))
  = segments thr a0 al s0.
Proof.
  revert al s0.
  induction a0 as [| p a0 IH]; intros [| q al] [| z s0] H1 H2; simpl in *; try done.
  destruct (gt z thr); simpl; rewrite IH; auto.
Qed.

(** A line of [segments] joins the two positions of a visible point. *)
Lemma elem_of_segments thr (a0 al : arr2) (s0 : arr1) (ln : Line2D) :
  ln ∈ segments thr a0 al s0 <->
  exists j p q z, a0 !! j = Some p /\ al !! j = Some q /\ s0 !! j = Some z /\
                  gt z thr = true /\ ln = mkLine2D (p.1, q.1) (p.2, q.2).
Proof.
  revert al s0.
  induction a0 as [| p a0 IH]; intros al s0.
  - simpl. split; [by intros ?%elem_of_nil | by intros (j & ? & ? & ? & ? & _)].
  - destruct al as [| q al]; [| destruct s0 as [| z s0]]; simpl.
    + split; [by intros ?%elem_of_nil |]. by intros (j & ? & ? & ? & _ & ? & _).
    + split; [by intros ?%elem_of_nil |]. by intros (j & ? & ? & ? & _ & _ & ? & _).
    + destruct (gt z thr) eqn:Hz.
      * rewrite elem_of_cons, IH. split.
        -- intros [-> | (j & p' & q' & z' & ?)].
           ++ by exists 0%nat, p, q, z.
           ++ by exists (S j), p', q', z'.
        -- intros ([| j] & p' & q' & z' & H1 & H2 & H3 & H4 & H5); simpl in *.
           ++ left. congruence.
           ++ right. by exists j, p', q', z'.
      * rewrite IH. split.
        -- intros (j & p' & q' & z' & ?). by exists (S j), p', q', z'.
        -- intros ([| j] & p' & q' & z' & H1 & H2 & H3 & H4 & H5); simpl in *.
           ++ congruence.
           ++ by exists j, p', q', z'.
Qed.

Lemma draw_lines_run n (s : state) :
  Shaped n s ->
  draw_lines s = (Ok tt, with_ax (add_lines (connecting_lines s) (ax s)) s).
Proof.
  intros Hs.
  pose proof (sh_nonempty n s Hs) as Hne.
  destruct (Shaped_size_snapshot n s 0 Hs)
    as (szs & l0 & s0 & Hsz & Hl0 & Hs0 & Hn0 & Hss); [lia |].
  destruct (Shaped_snapshot n s 0 Hs) as (a0 & Ha0 & Hna); [lia |].
  destruct (Shaped_snapshot_last n s Hs) as (al & Hal & Hnl).
  unfold connecting_lines. rewrite Ha0, Hal, Hss.
  apply snapshot_inv in Ha0 as (p0 & Hp0 & Hh0).
  apply snapshot_inv in Hal as (pl & Hpl & Hhl).
  unfold draw_lines.
  rewrite (bind_run get _ s s s) by done.
  erewrite bind_run by (apply lift_run; rewrite Hsz; reflexivity).
  erewrite bind_run by (apply lift_run; exact Hl0).
  erewrite bind_run by (apply deref1_run; exact Hs0).
  erewrite bind_run by (apply lift_run; exact Hp0).
  erewrite bind_run by (apply deref2_run; exact Hh0).
  erewrite bind_run
    by (apply lift_run, getmask_same; unfold gt_scalar; rewrite length_map; lia).
  erewrite bind_run by (apply lift_run; exact Hpl).
  erewrite bind_run by (apply deref2_run; exact Hhl).
  erewrite bind_run
    by (apply lift_run, getmask_same; unfold gt_scalar; rewrite length_map; lia).
  unfold modify. by rewrite segments_select by lia.
Qed.

(** ** Running [update] on a well-shaped state *)

Lemma with_ax_eta (s : state) : with_ax (ax s) s = s.
Proof. by destruct s. Qed.

Lemma with_idx_counter_eta (s : state) : with_idx_counter (idx_counter s) s = s.
Proof. by destruct s. Qed.

Lemma with_ax_texts_eta (s : state) : with_ax_texts (ax_texts s) s = s.
Proof. by destruct s. Qed.

Lemma with_frame_text_eta (s : state) : with_frame_text (frame_text s) s = s.
Proof. by destruct s. Qed.

Lemma lines_block_run n (s : state) i :
  Shaped n s ->
  when (lines s) (when (i =? numframes s - 1) draw_lines) s = (Ok tt, after_lines i s).
Proof.
  intros Hs. unfold after_lines.
  destruct (lines s); simpl; [| by rewrite with_ax_eta].
  destruct (i =? numframes s - 1); simpl; [| by rewrite with_ax_eta].
  by apply (draw_lines_run n).
Qed.

Lemma debug_block_run (b : bool) (s : state) i :
  (b = true -> exists t, idx_counter s = Some t) ->
  when b (let! s' := get in
          let! t := lift (attribute (idx_counter s')) in
          modify (with_idx_counter (Some (set_text (Int i) t)))) s
  = (Ok tt, with_idx_counter (if b then set_text (Int i) <$> idx_counter s
                              else idx_counter s) s).
Proof.
  intros H. destruct b; simpl; [| by rewrite with_idx_counter_eta].
  destruct H as [t Ht]; [done |].
  unfold bind, get, lift, modify. by rewrite Ht.
Qed.

(** A pause frame: lines 128-149. *)
Lemma update_pause_run n (s : state) i :
  Shaped n s -> framedelta s <> 0 -> i mod framedelta s < paused s ->
  update i s = (Ok tt, after_debug i (after_lines i s)).
Proof.
  intros Hs Hfd Hp. unfold update.
  rewrite (bind_run get _ s s s) by done.
  erewrite bind_run
    by (apply lift_run; unfold floordiv; apply Z.eqb_neq in Hfd; by rewrite Hfd).
  erewrite bind_run by (by apply (lines_block_run n)).
  erewrite bind_run.
  2:{ apply debug_block_run. intros Hd. simpl. by apply (sh_debug n s Hs). }
  erewrite bind_run
    by (apply lift_run; unfold modulo; apply Z.eqb_neq in Hfd; by rewrite Hfd).
  apply Z.ltb_lt in Hp. rewrite Hp.
  destruct (sh_scat n s Hs) as [sc Hsc].
  rewrite (bind_run get _ _ _ _ eq_refl).
  erewrite bind_run by (apply lift_run; simpl; rewrite Hsc; reflexivity).
  reflexivity.
Qed.

Lemma move_slot_idemp (o : arr2) k slot :
  move_slot o k (move_slot o k slot) = move_slot o k slot.
Proof.
  unfold move_slot. destruct slot as [t |]; [| done].
  destruct (o !! k) as [r |] eqn:E; simpl; by rewrite ?E.
Qed.

(** The loop of lines 164-166 replaces the label slots it visits. *)
Lemma move_labels_run off (o : arr2) (js : list Z) (s : state) txts :
  ax_texts s = Some txts -> heap2 s !! off = Some o ->
  (forall j, j ∈ js -> 0 <= j < Z.of_nat (length txts)
                       /\ j < Z.of_nat (length o)) ->
  exists txts', for_each js (move_label off) s = (Ok tt, with_ax_texts (Some txts') s)
                /\ length txts' = length txts
                /\ forall k slot, txts !! k = Some slot ->
                     txts' !! k = Some (if bool_decide (Z.of_nat k ∈ js)
                                        then move_slot o k slot else slot).
Proof.
  revert s txts. induction js as [| j js IH]; intros s txts Ht Ho Hjs.
  - exists txts. split; [| split; [done |]].
    + simpl. unfold ret. by rewrite <- Ht, with_ax_texts_eta.
    + intros k slot Hk.
      rewrite bool_decide_eq_false_2; [done | by intros ?%elem_of_nil].
  - destruct (Hjs j) as [Hj1 Hj2]; [by left |].
    destruct (index_in_range txts j Hj1) as (t & Hidx & Hlk).
    destruct (index_in_range o j) as (r & Hr & Hr'); [lia |].
    set (txts1 := <[Z.to_nat j := move_slot o (Z.to_nat j) t]> txts).
    assert (move_label off j s = (Ok tt, with_ax_texts (Some txts1) s)) as Hstep.
    { unfold move_label.
      rewrite (bind_run get _ s s s) by done.
      erewrite bind_run by (apply lift_run; rewrite Ht; reflexivity).
      erewrite bind_run by (apply lift_run; exact Hidx).
      unfold txts1, move_slot. destruct t as [txt |].
      - erewrite bind_run by (apply deref2_run; exact Ho).
        erewrite bind_run by (apply lift_run; exact Hr).
        by rewrite Hr'.
      - unfold ret. rewrite list_insert_id by done.
        by rewrite <- Ht, with_ax_texts_eta. }
    destruct (IH (with_ax_texts (Some txts1) s) txts1)
      as (txts' & Hrun & Hlen & Hall); [done | done | |].
    { intros j' Hj'. unfold txts1. rewrite length_insert. apply Hjs. by right. }
    exists txts'.
    split; [simpl; erewrite bind_run by exact Hstep; exact Hrun |].
    split; [by rewrite Hlen; unfold txts1; rewrite length_insert |].
    intros k slot Hk.
    destruct (decide (k = Z.to_nat j)) as [-> | Hne].
    + rewrite Hlk in Hk. injection Hk as <-.
      rewrite (Hall (Z.to_nat j) (move_slot o (Z.to_nat j) t)).
      2:{ unfold txts1. apply list_lookup_insert_eq. by eapply lookup_lt_Some. }
      rewrite (bool_decide_eq_true_2 (_ ∈ j :: js))
        by (rewrite Z2Nat.id by lia; left).
      f_equal. destruct (bool_decide _); [apply move_slot_idemp | done].
    + rewrite (Hall k slot).
      2:{ unfold txts1. by rewrite list_lookup_insert_ne. }
      f_equal. rewrite (bool_decide_ext (Z.of_nat k ∈ js) (Z.of_nat k ∈ j :: js)); [done |].
      rewrite elem_of_cons.
      split; [by right | intros [E | H]; [lia | done]].
Qed.

(** Over all the slots, in order, the loop yields [moved_labels]. *)
Lemma move_labels_all off (o : arr2) (s : state) txts :
  ax_texts s = Some txts -> heap2 s !! off = Some o ->
  (length txts <= length o)%nat ->
  for_each (range 0 (Z.of_nat (length txts))) (move_label off) s
  = (Ok tt, with_ax_texts (Some (moved_labels o txts)) s).
Proof.
  intros Ht Ho Hle.
  destruct (move_labels_run off o (range 0 (Z.of_nat (length txts))) s txts)
    as (txts' & Hrun & Hlen & Hall); [done | done | |].
  { intros j Hj%elem_of_range. lia. }
  rewrite Hrun. do 3 f_equal. apply list_eq. intros k.
  unfold moved_labels. rewrite list_lookup_imap.
  destruct (txts !! k) as [slot |] eqn:Hk.
  - rewrite (Hall k slot Hk). simpl.
    rewrite bool_decide_eq_true_2; [done |].
    apply elem_of_range. apply lookup_lt_Some in Hk. lia.
  - simpl. apply lookup_ge_None. rewrite Hlen. by apply lookup_ge_None.
Qed.

(** A driven frame lies in a segment after the first one. *)
Lemma driven_indices n (s : state) i :
  Shaped n s -> framedelta s <= i < numframes s ->
  0 < framedelta s /\ 1 <= i / framedelta s < Z.of_nat (length (position s)).
Proof.
  intros Hs [Hlo Hhi]. rewrite (sh_numframes n s Hs) in Hhi.
  pose proof (sh_nonempty n s Hs) as Hne.
  assert (0 < framedelta s) as Hfd by nia.
  split; [done |]. split.
  - apply Z.div_le_lower_bound; lia.
  - apply Z.div_lt_upper_bound; lia.
Qed.

Lemma update_move_run n (s : state) i :
  Shaped n s -> framedelta s <> 0 ->
  - Z.of_nat (length (position s)) < i / framedelta s
    < Z.of_nat (length (position s)) ->
  paused s <= i mod framedelta s ->
  exists prev next sc szs sizes_ref ft txts,
    snapshot s (i / framedelta s - 1) = Some prev /\ length prev = n /\
    snapshot s (i / framedelta s) = Some next /\ length next = n /\
    scat s = Some sc /\
    sizes s = Some szs /\ index szs (i / framedelta s) = Ok sizes_ref /\
    match frame_labels s with
    | Some fl => exists t lbl, frame_text s = Some t /\
                               index fl (i / framedelta s) = Ok lbl /\
                               ft = Some (set_text (Str lbl) t)
    | None => ft = frame_text s
    end /\
    match text_labels s with
    | Some _ => exists t t', ax_texts s = Some t /\ txts = Some t' /\
                             length t' = length t /\
                             t' = moved_labels
                                    (zip_with (blend (of_int (i mod framedelta s - paused s))
                                                     (of_int (animated s))) prev next) t
    | None => txts = ax_texts s
    end /\
    update i s =
      (Ok tt,
       after_move (zip_with (row_map2 PrimFloat.sub) next prev)
                  (zip_with (blend (of_int (i mod framedelta s - paused s))
                                   (of_int (animated s))) prev next)
                  sc sizes_ref ft txts (after_debug i (after_lines i s))).
Proof.
  intros Hs Hfd Hni Hp.
  destruct (Shaped_snapshot n s (i / framedelta s - 1) Hs) as (prev & Hprev & Hnp); [lia |].
  destruct (Shaped_snapshot n s (i / framedelta s) Hs) as (next & Hnext & Hnn); [lia |].
  destruct (sh_scat n s Hs) as [sc Hsc].
  destruct (Shaped_size_snapshot n s (i / framedelta s) Hs)
    as (szs & sizes_ref & sa & Hsz & Hidx & _); [lia |].
  set (s2 := after_debug i (after_lines i s)).
  set (d := zip_with (row_map2 PrimFloat.sub) next prev).
  set (o := zip_with (blend (of_int (i mod framedelta s - paused s))
                            (of_int (animated s))) prev next).
  set (s3 := with_heap2 (heap2 s2 ++ [d; o]) s2).
  set (s4 := with_scat (Some (set_offsets o sc)) s3).
  assert (length o = n) as Hno.
  { unfold o. rewrite length_zip_with. lia. }
  (* the caption *)
  assert (exists ft,
            match frame_labels s with
            | Some fl => exists t lbl, frame_text s = Some t /\
                                       index fl (i / framedelta s) = Ok lbl /\
                                       ft = Some (set_text (Str lbl) t)
            | None => ft = frame_text s
            end /\
            match frame_labels s with
            | Some fl =>
                let! s' := get in
                let! t := lift (attribute (frame_text s')) in
                let! lbl := lift (index fl (i / framedelta s)) in
                modify (with_frame_text (Some (set_text (Str lbl) t)))
            | None => ret tt
            end s4 = (Ok tt, with_frame_text ft s4)) as (ft & Hft & Hcap).
  { destruct (frame_labels s) as [fl |] eqn:Hfl.
    - destruct (sh_caption n s Hs fl Hfl) as (Hlen & t & Ht).
      destruct (index_valid fl (i / framedelta s)) as (lbl & j & Hlbl & _); [lia |].
      exists (Some (set_text (Str lbl) t)). split; [by exists t, lbl |].
      rewrite (bind_run get _ s4 s4 s4) by done.
      erewrite bind_run by (apply lift_run; simpl; rewrite Ht; reflexivity).
      erewrite bind_run by (apply lift_run; exact Hlbl).
      reflexivity.
    - exists (frame_text s). split; [done |].
      unfold ret. by rewrite <- (with_frame_text_eta s4) at 1. }
  set (s5 := with_frame_text ft s4).
  (* the labels *)
  assert (exists txts,
            match text_labels s with
            | Some _ => exists t t', ax_texts s = Some t /\ txts = Some t' /\
                                     length t' = length t /\
                                     t' = moved_labels o t
            | None => txts = ax_texts s
            end /\
            match text_labels s with
            | Some tl =>
                for_each (range 0 (Z.of_nat (length tl)))
                         (move_label (S (length (heap2 s2))))
            | None => ret tt
            end s5 = (Ok tt, with_ax_texts txts s5)) as (txts & Htxts & Hlab).
  { destruct (text_labels s) as [tl |] eqn:Htl.
    - destruct (sh_labels n s Hs tl Htl) as (t & Ht & Hlen & Hle).
      exists (Some (moved_labels o t)). split.
      + exists t, (moved_labels o t). repeat split; try done.
        unfold moved_labels. by rewrite length_imap.
      + rewrite <- Hlen. apply move_labels_all; [done | | lia].
        simpl. rewrite lookup_app_r by lia.
        by replace (S (length (heap2 s)) - length (heap2 s))%nat with 1%nat by lia.
    - exists (ax_texts s). split; [done |]. unfold ret.
      change (ax_texts s) with (ax_texts s5). by rewrite with_ax_texts_eta. }
  exists prev, next, sc, szs, sizes_ref, ft, txts.
  repeat (split; [done |]).
  unfold update.
  rewrite (bind_run get _ s s s) by done.
  erewrite bind_run.
  2:{ apply lift_run. unfold floordiv.
      replace (framedelta s =? 0) with false by (symmetry; apply Z.eqb_neq; lia).
      reflexivity. }
  erewrite bind_run by (by apply (lines_block_run n)).
  erewrite bind_run.
  2:{ apply debug_block_run. intros Hd. simpl. by apply (sh_debug n s Hs). }
  fold (after_debug i (after_lines i s)). fold s2.
  erewrite bind_run.
  2:{ apply lift_run. unfold modulo.
      replace (framedelta s =? 0) with false by (symmetry; apply Z.eqb_neq; lia).
      reflexivity. }
  replace (i mod framedelta s <? paused s) with false
    by (symmetry; apply Z.ltb_ge; lia).
  erewrite bind_run.
  2:{ apply (interpolate_ok s2 i _ _ prev next); [simpl; lia | done | done | lia]. }
  fold d. fold o. fold s3.
  erewrite bind_run by (apply lift_run; rewrite Hsz; reflexivity).
  erewrite bind_run by (apply lift_run; exact Hidx).
  erewrite bind_run.
  2:{ rewrite (bind_run get _ s3 s3 s3) by done.
      erewrite bind_run by (apply lift_run; simpl; rewrite Hsc; reflexivity).
      erewrite bind_run.
      2:{ apply deref2_run. simpl. rewrite lookup_app_r by lia.
          by replace (S (length (heap2 s)) - length (heap2 s))%nat with 1%nat by lia. }
      reflexivity. }
  fold s4.
  erewrite bind_run by exact Hcap.
  fold s5.
  erewrite bind_run by exact Hlab.
  rewrite Hsz.
  rewrite (bind_run get _ _ _ _ eq_refl).
  erewrite bind_run by (apply lift_run; simpl; reflexivity).
  reflexivity.
Qed.

(** ** What [update] keeps of a well-shaped state *)

Lemma evolves_refl (s : state) : evolves s s.
Proof. split; eauto. reflexivity. Qed.

Lemma evolves_trans (s1 s2 s3 : state) :
  evolves s1 s2 -> evolves s2 s3 -> evolves s1 s3.
Proof.
  intros [Hi Hf Ht Hc Hs] [Hi' Hf' Ht' Hc' Hs']. split; eauto.
  - etransitivity; eauto.
  - intros t H. destruct (Ht t H) as (t' & H' & Hl).
    destruct (Ht' t' H') as (t'' & H'' & Hl'). exists t''. split; [done | lia].
Qed.

Lemma snapshot_kept (s s' : state) k a :
  inputs_kept s s' -> snapshot s k = Some a -> snapshot s' k = Some a.
Proof.
  intros Hk (l & Hl & Ha)%snapshot_inv. unfold snapshot.
  replace (position s') with (position s) by (by rewrite (kept_self _ _ Hk)).
  rewrite Hl. by apply (inputs_kept_lookup s).
Qed.

Lemma size_snapshot_kept (s s' : state) k :
  inputs_kept s s' -> size_snapshot s' k = size_snapshot s k.
Proof.
  intros Hk. unfold size_snapshot.
  by rewrite (kept_self _ _ Hk), (kept_heap1 _ _ Hk).
Qed.

Lemma Shaped_evolves n (s s' : state) : Shaped n s -> evolves s s' -> Shaped n s'.
Proof.
  intros Hs [Hk Hf Ht Hc Hsc].
  pose proof (kept_self _ _ Hk) as Hself.
  pose proof (kept_heap1 _ _ Hk) as Hh1.
  split; rewrite ?Hself, ?Hh1.
  - apply (sh_nonempty n s Hs).
  - intros k l Hl. destruct (sh_position n s Hs k l Hl) as (a & Ha & Hn).
    exists a. split; [by apply (inputs_kept_lookup s) | done].
  - apply (sh_sizes n s Hs).
  - intros fl Hfl. destruct (sh_caption n s Hs fl Hfl) as (Hlen & t & Hft).
    split; [done |]. by apply Hf.
  - intros tl Htl. destruct (sh_labels n s Hs tl Htl) as (t & Ht1 & Hlen & Hle).
    destruct (Ht t Ht1) as (t' & Ht' & Hlen'). exists t'.
    split; [done |]. split; [lia | done].
  - by apply Hsc, (sh_scat n s Hs).
  - intros Hd. apply Hc. by apply (sh_debug n s Hs).
  - apply (sh_numframes n s Hs).
  - apply (sh_frames n s Hs).
Qed.

Lemma evolves_pause (s : state) i : evolves s (after_debug i (after_lines i s)).
Proof.
  split; simpl; eauto.
  - by split.
  - destruct (debug s); [| done]. intros [t ->]. by eexists.
Qed.

Lemma evolves_move d o sc r ft txts (s s2 : state) :
  evolves s s2 ->
  (is_Some (frame_text s2) -> is_Some ft) ->
  (forall t, ax_texts s2 = Some t -> exists t', txts = Some t' /\ length t' = length t) ->
  evolves s (after_move d o sc r ft txts s2).
Proof.
  intros Hev Hft Htx. eapply evolves_trans; [exact Hev |].
  split; simpl; eauto.
  split; simpl; [done | done | by apply prefix_app_r].
Qed.

(** Every driven frame runs to completion on a well-shaped state, which
    stays well-shaped; the axes gain the connecting lines at the last frame
    and nothing at any other. *)
Lemma update_driven n (s : state) i :
  Shaped n s -> framedelta s <= i < numframes s ->
  exists s', update i s = (Ok tt, s') /\ Shaped n s' /\ evolves s s' /\
             ax s' = ax (after_lines i s).
Proof.
  intros Hs Hi.
  destruct (driven_indices n s i Hs Hi) as (Hfd & _).
  destruct (Z.lt_ge_cases (i mod framedelta s) (paused s)) as [Hp | Hp].
  - exists (after_debug i (after_lines i s)).
    split; [apply (update_pause_run n); [done | lia | done] |].
    split; [eapply Shaped_evolves; [exact Hs | apply evolves_pause] |].
    split; [apply evolves_pause | done].
  - destruct (driven_indices n s i Hs Hi) as (_ & Hni).
    destruct (update_move_run n s i Hs ltac:(lia) ltac:(lia) Hp)
      as (prev & next & sc & szs & r & ft & txts & _ & _ & _ & _ & _ & _ & _
          & Hft & Htx & Hrun).
    eexists. split; [exact Hrun |].
    assert (evolves s (after_move (zip_with (row_map2 PrimFloat.sub) next prev)
              (zip_with (blend (of_int (i mod framedelta s - paused s))
                               (of_int (animated s))) prev next)
              sc r ft txts (after_debug i (after_lines i s)))) as Hev.
    { apply evolves_move; [apply evolves_pause | |]; simpl.
      - destruct (frame_labels s); [| by subst].
        destruct Hft as (t & lbl & _ & _ & ->). by eexists.
      - intros t Ht. destruct (text_labels s).
        + destruct Htx as (t0 & t' & Ht0 & -> & Hlen & _). exists t'.
          split; [done | congruence].
        + subst. by exists t. }
    split; [eapply Shaped_evolves; eauto |]. split; [done | done].
Qed.

(** ** Runs of [update] over several frames *)

Lemma connecting_lines_kept n (s s' : state) :
  Shaped n s -> inputs_kept s s' -> connecting_lines s' = connecting_lines s.
Proof.
  intros Hs Hk. pose proof (sh_nonempty n s Hs) as Hne.
  destruct (Shaped_snapshot n s 0 Hs) as (a0 & Ha0 & _); [lia |].
  destruct (Shaped_snapshot_last n s Hs) as (al & Hal & _).
  unfold connecting_lines.
  rewrite (snapshot_kept s s' 0 a0 Hk Ha0), (snapshot_kept s s' (-1) al Hk Hal).
  rewrite Ha0, Hal, (size_snapshot_kept s s' 0 Hk).
  by rewrite (kept_self _ _ Hk).
Qed.

Lemma ax_lines_after_lines (s : state) i :
  ax_lines (ax (after_lines i s)) = ax_lines (ax s) ++ lines_at s i.
Proof.
  unfold after_lines, lines_at. simpl.
  destruct (lines s && (i =? numframes s - 1)); simpl; [done |].
  by rewrite app_nil_r.
Qed.

Lemma run_driven n (fs : list Z) (s : state) :
  Shaped n s ->
  (forall i, i ∈ fs -> framedelta s <= i < numframes s) ->
  exists s', run_frames fs s = (Ok tt, s') /\ Shaped n s' /\ evolves s s' /\
             ax_lines (ax s') = ax_lines (ax s) ++ flat_map (lines_at s) fs.
Proof.
  unfold run_frames. revert s.
  induction fs as [| i fs IH]; intros s Hs Hfs.
  - exists s. simpl. rewrite app_nil_r.
    split; [done |]. split; [done |]. split; [apply evolves_refl | done].
  - destruct (update_driven n s i Hs (Hfs i ltac:(by left)))
      as (s1 & Hrun & Hs1 & Hev & Hax).
    pose proof (kept_self _ _ (ev_inputs _ _ Hev)) as Hself.
    destruct (IH s1 Hs1) as (s' & Hrun' & Hs' & Hev' & Hax').
    { intros j Hj. rewrite Hself. apply Hfs. by right. }
    exists s'. simpl. erewrite bind_run by exact Hrun.
    split; [exact Hrun' |]. split; [done |].
    split; [by eapply evolves_trans |].
    rewrite Hax', Hax, ax_lines_after_lines, <- (assoc_L (++)).
    f_equal. f_equal. apply flat_map_ext. intros j. unfold lines_at.
    by rewrite Hself, (connecting_lines_kept n s s1 Hs (ev_inputs _ _ Hev)).
Qed.

Lemma flat_map_nil {A B} (f : A -> list B) (l : list A) :
  (forall x, x ∈ l -> f x = []) -> flat_map f l = [].
Proof.
  induction l as [| x l IH]; intros H; simpl; [done |].
  rewrite (H x) by (by left). apply IH. intros y Hy. apply H. by right.
Qed.

(** Over the driven frames, only the last one adds lines. *)
Lemma lines_at_pass (s : state) :
  framedelta s < numframes s ->
  flat_map (lines_at s) (range (framedelta s) (numframes s))
  = if lines s then connecting_lines s else [].
Proof.
  intros H.
  replace (numframes s) with (numframes s - 1 + 1) at 1 by lia.
  rewrite range_snoc by lia. rewrite flat_map_app. simpl.
  rewrite flat_map_nil.
  - unfold lines_at. rewrite Z.eqb_refl, andb_true_r, app_nil_r. done.
  - intros i Hi%elem_of_range. unfold lines_at.
    replace (i =? numframes s - 1) with false by (symmetry; apply Z.eqb_neq; lia).
    by rewrite andb_false_r.
Qed.

#[local] Instance scat_kept_preorder : PreOrder scat_kept.
Proof.
  split.
  - by intros s.
  - intros s1 s2 s3 [H1 H2] [H1' H2']. split; congruence.
Qed.

Lemma steps_at_get (R : relation state) {A} (k : state -> M A) (s : state) :
  steps R (k s) -> R s (bind get k s).2.
Proof. intros H. apply H. Qed.

Lemma steps_bind_lift (R : relation state) `{!PreOrder R} {A B}
    (o : outcome A) (k : A -> M B) :
  (forall a, o = Ok a -> steps R (k a)) -> steps R (bind (lift o) k).
Proof.
  intros H s. unfold bind, lift. destruct o as [a | e]; simpl.
  - by apply H.
  - reflexivity.
Qed.

(** Lines 128-149 never touch the scatter: on a pause frame [update]
    returns, or raises, with the scatter it found. *)
Lemma update_pause_scat (s : state) i :
  i mod framedelta s < paused s -> scat_kept s (update i s).2.
Proof.
  intros Hp. unfold update. apply steps_at_get.
  apply (steps_bind_lift scat_kept). intros ni _.
  apply (steps_bind scat_kept).
  { unfold draw_lines.
    steps_skeleton scat_kept ltac:(apply steps_modify; intros; by split). }
  intros _. apply (steps_bind scat_kept).
  { steps_skeleton scat_kept ltac:(apply steps_modify; intros; by split). }
  intros _. apply (steps_bind_lift scat_kept). intros r Hr.
  unfold modulo in Hr. destruct (framedelta s =? 0); [discriminate |].
  injection Hr as <-. apply Z.ltb_lt in Hp. rewrite Hp.
  steps_skeleton scat_kept fail.
Qed.

Lemma run_pause_frames n (fs : list Z) (s : state) :
  Shaped n s -> framedelta s <> 0 ->
  (forall i, i ∈ fs -> i mod framedelta s < paused s) ->
  exists s', run_frames fs s = (Ok tt, s') /\ scat s' = scat s /\ Shaped n s'.
Proof.
  unfold run_frames. revert s.
  induction fs as [| i fs IH]; intros s Hs Hfd Hfs.
  - by exists s.
  - simpl.
    erewrite bind_run by (apply (update_pause_run n); [done | done | apply Hfs; by left]).
    destruct (IH (after_debug i (after_lines i s))) as (s' & Hrun & Hsc & Hs').
    + eapply Shaped_evolves; [exact Hs | apply evolves_pause].
    + done.
    + intros j Hj. apply Hfs. by right.
    + by exists s'.
Qed.

Lemma scat_kept_pause_frames (fs : list Z) (s : state) :
  (forall i, i ∈ fs -> i mod framedelta s < paused s) ->
  scat_kept s (run_frames fs s).2.
Proof.
  unfold run_frames. revert s. induction fs as [| i fs IH]; intros s Hfs.
  - simpl. reflexivity.
  - simpl. unfold bind.
    pose proof (update_pause_scat s i (Hfs i ltac:(by left))) as Hk.
    destruct (update i s) as [[[] | e] s1]; simpl in *; [| done].
    etransitivity; [exact Hk |]. apply IH.
    intros j Hj. destruct Hk as [-> _]. apply Hfs. by right.
Qed.

(** ** What [initScat] returns *)

#[local] Instance heaps_same_preorder : PreOrder heaps_same.
Proof.
  split.
  - by intros s.
  - intros s1 s2 s3 (H1 & H2 & H3) (H1' & H2' & H3'). repeat split; congruence.
Qed.

Ltac steps_heaps :=
  steps_skeleton heaps_same ltac:(apply steps_modify; intros; by repeat split).

Lemma bind_Ok_inv {A B} (m : M A) (k : A -> M B) (s s' : state) (b : B) :
  bind m k s = (Ok b, s') ->
  exists a s1, m s = (Ok a, s1) /\ k a s1 = (Ok b, s').
Proof.
  unfold bind. destruct (m s) as [[a | e] s1]; [| discriminate]. eauto.
Qed.

Lemma bind_Ok_inv_steps (R : relation state) {A B} (m : M A) (k : A -> M B)
    (s s' : state) (b : B) :
  steps R m -> bind m k s = (Ok b, s') ->
  exists a s1, R s s1 /\ k a s1 = (Ok b, s').
Proof.
  intros Hm (a & s1 & H1 & H2)%bind_Ok_inv. exists a, s1. split; [| done].
  specialize (Hm s). by rewrite H1 in Hm.
Qed.

Lemma get_Ok_inv (s s' a : state) : get s = (Ok a, s') -> a = s /\ s' = s.
Proof. unfold get. by intros [= <- <-]. Qed.

Lemma modify_Ok_inv (f : state -> state) (s s' : state) u :
  modify f s = (Ok u, s') -> s' = f s.
Proof. unfold modify. by intros [= _ <-]. Qed.

Lemma ret_Ok_inv {A} (a b : A) (s s' : state) :
  ret a s = (Ok b, s') -> b = a /\ s' = s.
Proof. unfold ret. by intros [= <- <-]. Qed.

Lemma lift_Ok_inv {A} (o : outcome A) (s s' : state) (a : A) :
  lift o s = (Ok a, s') -> o = Ok a /\ s' = s.
Proof. unfold lift. by intros [= -> ->]. Qed.

Lemma deref2_Ok_inv l (s s' : state) a :
  deref2 l s = (Ok a, s') -> heap2 s !! l = Some a /\ s' = s.
Proof. unfold deref2. destruct (heap2 s !! l); by intros [= <- <-]. Qed.

Lemma deref1_Ok_inv l (s s' : state) a :
  deref1 l s = (Ok a, s') -> heap1 s !! l = Some a /\ s' = s.
Proof. unfold deref1. destruct (heap1 s !! l); by intros [= <- <-]. Qed.

(** The arguments of a [scatter] call that went through. *)
Lemma scatter_args_inv (s s' : state) x y cv s0 :
  scatter_args s = (Ok (x, y, cv, s0), s') ->
  s' = s /\ c s = Some cv /\ size_snapshot s 0 = Some s0 /\
  exists a0, snapshot s 0 = Some a0 /\ x = T0 a0 /\ y = T1 a0.
Proof.
  unfold scatter_args. intros H.
  apply bind_Ok_inv in H as (? & ? & [-> ->]%get_Ok_inv & H).
  apply bind_Ok_inv in H as (p0 & ? & [Hp0 ->]%lift_Ok_inv & H).
  apply bind_Ok_inv in H as (a0 & ? & [Ha0 ->]%deref2_Ok_inv & H).
  apply bind_Ok_inv in H as (cv' & ? & [Hcv ->]%lift_Ok_inv & H).
  apply bind_Ok_inv in H as (szs & ? & [Hszs ->]%lift_Ok_inv & H).
  apply bind_Ok_inv in H as (l0 & ? & [Hl0 ->]%lift_Ok_inv & H).
  apply bind_Ok_inv in H as (s0' & ? & [Hs0 ->]%deref1_Ok_inv & H).
  injection H as <- <- <- <- <-.
  destruct (c s) as [cv'' |] eqn:Hc; [| discriminate]. injection Hcv as ->.
  destruct (sizes s) as [szs' |] eqn:Hsz; [| discriminate]. injection Hszs as ->.
  split; [done |]. split; [done |]. split.
  - unfold size_snapshot. by rewrite Hsz, Hl0.
  - exists a0. split; [| done]. unfold snapshot. by rewrite Hp0.
Qed.

(** When [initScat] returns: the first snapshot and the first size array
    exist, the scatter shows them, and the shadow, if enabled, is the last
    collection added to the axes. *)
Lemma initScat_Ok_inv (s s' : state) :
  initScat s = (Ok tt, s') ->
  exists s1 a0 cv s0,
    heaps_same s s1 /\
    snapshot s 0 = Some a0 /\ size_snapshot s 0 = Some s0 /\
    (if colors s then exists n, len (text_labels s) = Ok n /\ cv = Some (range 0 n)
     else cv = None) /\
    s' = (if shadows s
          then with_ax (add_collection (shadow_scatter s a0 cv s0) (ax s1))
                       (with_scat (Some (main_scatter s a0 cv s0)) s1)
          else with_scat (Some (main_scatter s a0 cv s0)) s1).
Proof.
  unfold initScat. intros H0.
  apply bind_Ok_inv in H0 as (sa & sb & [-> ->]%get_Ok_inv & H).
  apply (bind_Ok_inv_steps heaps_same) in H as (? & s1 & H1 & Ha); [| steps_heaps].
  apply (bind_Ok_inv_steps heaps_same) in Ha as (? & s2 & H2 & Hb); [| steps_heaps].
  apply (bind_Ok_inv_steps heaps_same) in Hb as (? & s3 & H3 & Hc).
  2:{ unfold init_label, append_ax_text. steps_heaps. }
  apply (bind_Ok_inv_steps heaps_same) in Hc as (? & s4 & H4 & Hd).
  2:{ unfold call_helper. steps_heaps. }
  apply (bind_Ok_inv_steps heaps_same) in Hd as (? & s5 & H5 & H); [| steps_heaps].
  apply bind_Ok_inv in H as (? & s6 & ->%modify_Ok_inv & H).
  assert (exists cv s7,
             heaps_same s5 s7 /\ c s7 = Some cv /\
             (if colors s
              then exists n, len (text_labels s) = Ok n /\ cv = Some (range 0 n)
              else cv = None) /\
             bind scatter_args
               (fun a => let '(x, y, cv, s0) := a in
                  run! modify (with_scat
                                 (Some (scatter x y cv (cmap s) s0 true
                                                0.8%float (Some "k")))) in
                  when (shadows s)
                    (let! a := scatter_args in
                     let '(x, y, cv, s0) := a in
                     let! s' := get in
                     modify (with_ax
                               (add_collection
                                  (scatter x y cv (cmap s) s0 false 0.25%float None)
                                  (ax s'))))) s7 = (Ok tt, s'))
    as (cv & s7 & H7 & Hcv & Hcol & Hrest).
  { apply bind_Ok_inv in H as (? & s7 & Hc & H).
    destruct (colors s); simpl in Hc.
    - apply bind_Ok_inv in Hc as (n & ? & [Hn ->]%lift_Ok_inv & ->%modify_Ok_inv).
      exists (Some (range 0 n)), (with_c (Some (Some (range 0 n))) (with_c (Some None) s5)).
      split; [by repeat split |]. split; [done |]. split; [by exists n | done].
    - apply ret_Ok_inv in Hc as [_ ->].
      exists None, (with_c (Some None) s5).
      split; [by repeat split |]. by repeat split. }
  clear H.
  apply bind_Ok_inv in Hrest as ([[[xs ys] cv'] s0] & s8 & Hargs & H).
  apply scatter_args_inv in Hargs as (-> & Hcv' & Hs0 & a0 & Ha0 & -> & ->).
  rewrite Hcv in Hcv'. injection Hcv' as <-.
  assert (heaps_same s s7) as Hs7.
  { transitivity s1; [done |]. transitivity s2; [done |].
    transitivity s3; [done |]. transitivity s4; [done |].
    by transitivity s5. }
  destruct Hs7 as (Hself & Hh1 & Hh2).
  assert (snapshot s 0 = Some a0) as Ha0'.
  { unfold snapshot in *. by rewrite <- Hself, <- Hh2. }
  assert (size_snapshot s 0 = Some s0) as Hs0'.
  { unfold size_snapshot in *. by rewrite <- Hself, <- Hh1. }
  exists s7, a0, cv, s0. repeat (split; [done |]).
  apply bind_Ok_inv in H as (? & s9 & ->%modify_Ok_inv & H).
  destruct (shadows s); simpl in H.
  - apply bind_Ok_inv in H as ([[[xs ys] cv'] s0'] & s10 & Hargs & H).
    apply scatter_args_inv in Hargs as (-> & Hcv' & Hs0'' & a0' & Ha0'' & -> & ->).
    simpl in Hcv'. rewrite Hcv in Hcv'. injection Hcv' as <-.
    assert (a0' = a0) as -> by (unfold snapshot in *; simpl in *; congruence).
    assert (s0' = s0) as -> by (unfold size_snapshot in *; simpl in *; congruence).
    apply bind_Ok_inv in H as (? & ? & [-> ->]%get_Ok_inv & ->%modify_Ok_inv).
    done.
  - by apply ret_Ok_inv in H as [_ ->].
Qed.

Lemma play_frames (s : state) :
  play s = (run! initScat in run_frames (anim_frames s)) s.
Proof.
  unfold play, bind. pose proof (steps_initScat_inputs s) as Hk.
  destruct (initScat s) as [[[] | e] s1]; simpl in *; [| done].
  by rewrite (kept_self _ _ Hk).
Qed.

(** ** [initScat] and [play] on well-formed inputs *)

Lemma enumerate_length {A} (l : list A) : length (enumerate l) = length l.
Proof.
  unfold enumerate. rewrite length_combine, range_length. lia.
Qed.

Lemma elem_of_enumerate {A} (l : list A) i x :
  (i, x) ∈ enumerate l -> 0 <= i < Z.of_nat (length l).
Proof.
  unfold enumerate. intros H%elem_of_zip_l. by apply elem_of_range in H.
Qed.

(** The loop of lines 93-99 appends one slot per text label: a label at
    the frame-0 position of its point when the frame-0 size of the point
    exceeds the threshold, [None] otherwise. *)
Lemma init_labels_run n (s : state) (a0 : arr2) (s0 : arr1) tl
    (js : list (Z * string)) acc :
  snapshot s 0 = Some a0 -> size_snapshot s 0 = Some s0 ->
  length a0 = n -> length s0 = n ->
  text_labels s = Some tl ->
  ax_texts s = Some acc ->
  (forall il, il ∈ js -> 0 <= il.1 < Z.of_nat (length tl) /\ il.1 < Z.of_nat n) ->
  for_each js (fun il => init_label il.1) s
  = (Ok tt,
     with_ax_texts
       (Some (acc ++ map (fun il : Z * string =>
                            tl !! Z.to_nat il.1
                            ≫= label_slot (threshold s) a0 s0 (Z.to_nat il.1)) js)) s).
Proof.
  intros Ha0 Hs0 Hna Hns Htl. revert s acc Ha0 Hs0 Htl.
  induction js as [| [i lbl] js IH]; intros s acc Ha0 Hs0 Htl Hacc Hjs.
  - simpl. unfold ret. rewrite app_nil_r, <- Hacc.
    by rewrite with_ax_texts_eta.
  - destruct (Hjs (i, lbl)) as [Hi1 Hi2]; [by left |]. simpl in Hi1, Hi2.
    pose proof Ha0 as (p0 & Hp0 & Hh0)%snapshot_inv.
    unfold size_snapshot in Hs0.
    destruct (sizes s) as [szs |] eqn:Hsz; [| discriminate].
    destruct (index szs 0) as [l0 |] eqn:Hl0; [| discriminate].
    destruct (index_in_range s0 i) as (si & Hsi & Hsi'); [lia |].
    destruct (index_in_range (T0 a0) i) as (x & Hx & Hx');
      [unfold T0; rewrite length_map; lia |].
    destruct (index_in_range (T1 a0) i) as (y & Hy & Hy');
      [unfold T1; rewrite length_map; lia |].
    destruct (index_in_range tl i) as (t & Ht & Ht'); [lia |].
    set (slot := if gt si (threshold s)
                 then Some (mkText (x, y) (Str t) None) else None).
    assert (tl !! Z.to_nat i ≫= label_slot (threshold s) a0 s0 (Z.to_nat i) = slot)
      as Hslot.
    { rewrite Ht'. simpl. unfold label_slot, slot. rewrite Hsi'.
      unfold T0 in Hx'. unfold T1 in Hy'. rewrite list_lookup_fmap in Hx', Hy'.
      destruct (a0 !! Z.to_nat i) as [[px py] |]; [| discriminate].
      simpl in Hx', Hy'. by injection Hx' as ->; injection Hy' as ->. }
    assert (init_label i s = (Ok tt, with_ax_texts (Some (acc ++ [slot])) s)) as Hrun.
    { unfold init_label.
      rewrite (bind_run get _ s s s) by done.
      erewrite bind_run by (apply lift_run; rewrite Hsz; reflexivity).
      erewrite bind_run by (apply lift_run; exact Hl0).
      erewrite bind_run by (apply deref1_run; exact Hs0).
      erewrite bind_run by (apply lift_run; exact Hsi).
      unfold slot, append_ax_text. destruct (gt si (threshold s)).
      - erewrite bind_run by (apply lift_run; exact Hp0).
        erewrite bind_run by (apply deref2_run; exact Hh0).
        erewrite bind_run by (apply lift_run; exact Hx).
        erewrite bind_run by (apply lift_run; exact Hy).
        erewrite bind_run by (apply lift_run; rewrite Htl; reflexivity).
        erewrite bind_run by (apply lift_run; exact Ht).
        rewrite (bind_run get _ s s s) by done.
        erewrite bind_run by (apply lift_run; rewrite Hacc; reflexivity).
        reflexivity.
      - rewrite (bind_run get _ s s s) by done.
        erewrite bind_run by (apply lift_run; rewrite Hacc; reflexivity).
        reflexivity. }
    simpl. erewrite bind_run by exact Hrun.
    rewrite (IH (with_ax_texts (Some (acc ++ [slot])) s) (acc ++ [slot])); try done.
    + simpl. rewrite Hslot. by rewrite <- (assoc_L (++)).
    + unfold size_snapshot. simpl. by rewrite Hsz, Hl0.
    + intros il Hil. apply Hjs. by right.
Qed.

Lemma combine_lookup {A B} (l : list A) (l' : list B) k :
  combine l l' !! k = match l !! k, l' !! k with
                      | Some a, Some b => Some (a, b)
                      | _, _ => None
                      end.
Proof.
  revert l' k. induction l as [| a l IH]; intros [| b l'] [| k]; simpl; try done.
  by destruct (l !! k).
Qed.

(** Over [enumerate(text_labels)] the slots are [label_slots]. *)
Lemma enumerate_slots thr (a0 : arr2) (s0 : arr1) (tl : list string) :
  map (fun il : Z * string =>
         tl !! Z.to_nat il.1 ≫= label_slot thr a0 s0 (Z.to_nat il.1)) (enumerate tl)
  = label_slots thr a0 s0 tl.
Proof.
  apply list_eq. intros k. unfold label_slots, enumerate.
  rewrite list_lookup_fmap, list_lookup_imap, combine_lookup.
  destruct (tl !! k) as [lbl |] eqn:Hk; simpl.
  - assert (range 0 (Z.of_nat (length tl)) !! k = Some (Z.of_nat k)) as ->.
    { unfold range. rewrite list_lookup_fmap, lookup_seq_lt; [done |].
      apply lookup_lt_Some in Hk. lia. }
    simpl. by rewrite Nat2Z.id, Hk.
  - by destruct (range 0 (Z.of_nat (length tl)) !! k).
Qed.

Lemma Shaped_shaped n (s : state) : Shaped n s -> shaped n s = true.
Proof.
  intros [H1 H2 (szs & H3 & H3' & H3'') H4 H5 [sc H6] H7 H8 H9].
  assert (forall {A} (h : list (list A)) ls,
             (forall k l, ls !! k = Some l ->
                          exists a, h !! l = Some a /\ length a = n) ->
             arrays_ok h n ls = true) as Harr.
  { intros A h ls H. unfold arrays_ok. apply forallb_forall.
    intros l Hl%list_elem_of_In%list_elem_of_lookup. destruct Hl as [k Hk].
    destruct (H k l Hk) as (a & -> & Ha). by apply Nat.eqb_eq. }
  unfold shaped. rewrite !andb_true_iff. repeat split.
  - apply negb_true_iff, Nat.eqb_neq. lia.
  - by apply Harr.
  - rewrite H3. apply andb_true_iff. split; [by apply Nat.eqb_eq | by apply Harr].
  - destruct (frame_labels s) as [fl |]; [| done].
    destruct (H4 fl eq_refl) as (Hlen & t & ->).
    apply andb_true_iff. split; [by apply Nat.eqb_eq | done].
  - destruct (text_labels s) as [tl |]; [| done].
    destruct (H5 tl eq_refl) as (txts & -> & Hlen & Hle).
    apply andb_true_iff. split; [by apply Nat.eqb_eq | by apply Nat.leb_le].
  - by rewrite H6.
  - destruct (debug s); [| done]. by destruct (H7 eq_refl) as [t ->].
  - by apply Z.eqb_eq.
  - by apply bool_decide_eq_true.
Qed.

(** On well-formed inputs [initScat] returns, in the state [initialized]. *)
Lemma initScat_run n (s : state) :
  well_formed n s = true ->
  exists a0 s0,
    snapshot s 0 = Some a0 /\ size_snapshot s 0 = Some s0 /\
    length a0 = n /\ length s0 = n /\
    initScat s = (Ok tt, initialized s a0 s0).
Proof.
  unfold well_formed. rewrite !andb_true_iff.
  intros ((((((((H1 & H2) & H3) & H4) & H5) & H6) & H7) & H8) & _).
  apply negb_true_iff, Nat.eqb_neq in H1.
  destruct (sizes s) as [szs |] eqn:Hsz; [| discriminate].
  apply andb_true_iff in H3 as [H3 H3'']. apply Nat.eqb_eq in H3.
  destruct (helpers s) eqn:Hh; [discriminate |].
  destruct (index_in_range (position s) 0) as (p0 & Hp0 & Hp0'); [lia |].
  destruct (arrays_ok_lookup _ _ _ _ _ H2 Hp0') as (a0 & Ha0 & Hna).
  destruct (index_in_range szs 0) as (l0 & Hl0 & Hl0'); [lia |].
  destruct (arrays_ok_lookup _ _ _ _ _ H3'' Hl0') as (s0 & Hs0 & Hns).
  assert (snapshot s 0 = Some a0) as Hsnap by (unfold snapshot; by rewrite Hp0).
  assert (size_snapshot s 0 = Some s0) as Hssnap
    by (unfold size_snapshot; by rewrite Hsz, Hl0).
  exists a0, s0. repeat (split; [done |]).
  (* 88-89 *)
  set (s1 := with_frame_text (first_caption s) s).
  assert (match frame_labels s with
          | Some _ =>
              let! tl := lift (subscriptable (text_labels s)) in
              let! lbl := lift (index tl 0) in
              modify (with_frame_text
                        (Some (mkText (frame_loc s) (Str lbl) (Some 24))))
          | None => ret tt
          end s = (Ok tt, s1)) as Hcap.
  { unfold s1, first_caption. destruct (frame_labels s) as [fl |].
    - destruct (text_labels s) as [[| lbl tl] |]; try (by rewrite andb_false_r in H4).
      reflexivity.
    - unfold ret. by rewrite with_frame_text_eta. }
  (* 91-99 *)
  set (txts := match text_labels s with
               | Some tl => label_slots (threshold s) a0 s0 tl
               | None => []
               end).
  assert (match text_labels s with
          | Some tl => for_each (enumerate tl) (fun il => init_label il.1)
          | None => ret tt
          end (with_ax_texts (Some []) s1)
          = (Ok tt, with_ax_texts (Some txts) s1)) as Hlab.
  { unfold txts. destruct (text_labels s) as [tl |] eqn:Htl; [| done].
    apply Nat.leb_le in H5.
    rewrite (init_labels_run n (with_ax_texts (Some []) s1) a0 s0 tl
               (enumerate tl) []); try done.
    - simpl. by rewrite enumerate_slots.
    - intros [i x] Hil. apply elem_of_enumerate in Hil. simpl. lia. }
  set (s2 := with_ax_texts (Some txts) s1).
  set (s3 := with_idx_counter
               (if debug s
                then Some (mkText (0.25%float, 0.35%float) (Str "0") (Some 24))
                else idx_counter s) s2).
  set (cv := color_index s).
  set (s4 := with_c (Some cv) s3).
  set (s5 := with_scat (Some (main_scatter s a0 cv s0)) s4).
  assert (forall st : state,
             self st = self s -> heap1 st = heap1 s -> heap2 st = heap2 s ->
             c st = Some cv ->
             scatter_args st = (Ok (T0 a0, T1 a0, cv, s0), st)) as Hargs.
  { intros st Hself Hh1 Hh2 Hc. unfold scatter_args.
    rewrite (bind_run get _ st st st) by done.
    erewrite bind_run by (apply lift_run; rewrite Hself; exact Hp0).
    erewrite bind_run by (apply deref2_run; rewrite Hh2; exact Ha0).
    erewrite bind_run by (apply lift_run; rewrite Hc; reflexivity).
    erewrite bind_run by (apply lift_run; rewrite Hself, Hsz; reflexivity).
    erewrite bind_run by (apply lift_run; exact Hl0).
    erewrite bind_run by (apply deref1_run; rewrite Hh1; exact Hs0).
    reflexivity. }
  unfold initScat.
  rewrite (bind_run get _ s s s) by done.
  erewrite bind_run by exact Hcap.
  erewrite bind_run by reflexivity.
  erewrite bind_run by exact Hlab.
  rewrite Hh.
  erewrite bind_run by reflexivity.
  erewrite (bind_run _ _ _ s3).
  2:{ unfold s3. destruct (debug s); simpl; [reflexivity |].
      unfold ret. change (idx_counter s) with (idx_counter s2).
      by rewrite with_idx_counter_eta. }
  erewrite bind_run by reflexivity.
  erewrite (bind_run _ _ _ s4).
  2:{ unfold s4, cv, color_index. destruct (colors s); simpl.
      - destruct (text_labels s) as [tl |]; [reflexivity | discriminate].
      - reflexivity. }
  erewrite bind_run by (by apply Hargs).
  cbv iota beta.
  erewrite bind_run by reflexivity.
  fold (main_scatter s a0 cv s0). fold s5.
  unfold initialized. fold s1 txts s2 s3 cv s4 s5.
  destruct (shadows s); simpl; [| reflexivity].
  erewrite bind_run by (by apply Hargs).
  cbv iota beta.
  rewrite (bind_run get _ s5 s5 s5) by done.
  reflexivity.
Qed.

(** The state [initScat] returns on well-formed inputs is well-shaped. *)
Lemma initialized_Shaped n (s : state) (a0 : arr2) (s0 : arr1) :
  well_formed n s = true -> Shaped n (initialized s a0 s0).
Proof.
  unfold well_formed. rewrite !andb_true_iff.
  intros ((((((((H1 & H2) & H3) & H4) & H5) & H6) & H7) & H8) & _).
  apply negb_true_iff, Nat.eqb_neq in H1.
  destruct (sizes s) as [szs |] eqn:Hsz; [| discriminate].
  apply andb_true_iff in H3 as [H3 H3'']. apply Nat.eqb_eq in H3.
  apply Z.eqb_eq in H7. apply bool_decide_eq_true in H8.
  set (s6 := initialized s a0 s0).
  assert (self s6 = self s /\ heap1 s6 = heap1 s /\ heap2 s6 = heap2 s /\
          frame_text s6 = first_caption s /\
          ax_texts s6 = Some (match text_labels s with
                              | Some tl => label_slots (threshold s) a0 s0 tl
                              | None => []
                              end) /\
          idx_counter s6 = (if debug s
                            then Some (mkText (0.25%float, 0.35%float) (Str "0") (Some 24))
                            else idx_counter s) /\
          scat s6 = Some (main_scatter s a0 (color_index s) s0))
    as (E1 & E2 & E3 & E4 & E5 & E6 & E7).
  { unfold s6, initialized. by destruct (shadows s). }
  split; rewrite ?E1, ?E2, ?E3, ?E4, ?E5, ?E6, ?E7.
  + lia.
  + intros k l. by apply arrays_ok_lookup.
  + exists szs. split; [done |]. split; [done |].
    intros k l. by apply arrays_ok_lookup.
  + intros fl Hfl. unfold first_caption. rewrite Hfl in *.
    apply andb_true_iff in H4 as [H4 H4']. apply Nat.eqb_eq in H4.
    split; [done |]. destruct (text_labels s) as [[| lbl tl] |]; try done.
    by eexists.
  + intros tl Htl. rewrite Htl. eexists. split; [done |].
    split; [unfold label_slots; by rewrite length_imap |].
    rewrite Htl in H5. by apply Nat.leb_le.
  + by eexists.
  + intros Hd. rewrite Hd. by eexists.
  + done.
  + done.
Qed.

(** On well-formed inputs [initScat] returns a well-shaped state. *)
Lemma initScat_shapes n (s : state) :
  well_formed n s = true ->
  exists s', initScat s = (Ok tt, s') /\ shaped n s' = true.
Proof.
  intros Hwf. destruct (initScat_run n s Hwf) as (a0 & s0 & _ & _ & _ & _ & Hrun).
  exists (initialized s a0 s0). split; [done |].
  by apply Shaped_shaped, initialized_Shaped.
Qed.

Example small_step_well_formed :
  well_formed 1 (__init__ [[(0%float, 0%float)]; [(0.1%float, 0.1%float)]]
                          [[5%float]; [5%float]]
                          (two_frames (Some [0%nat; 1%nat]))) = true.
Proof. vm_compute. reflexivity. Qed.

(** On well-formed inputs a whole pass of the animation runs to its end. *)
Lemma play_runs n (s : state) :
  well_formed n s = true -> exists s', play s = (Ok tt, s').
Proof.
  intros (s1 & Hinit & Hs1%shaped_Shaped)%initScat_shapes.
  pose proof (steps_initScat_inputs s) as Hk. rewrite Hinit in Hk. simpl in Hk.
  destruct (run_driven n (anim_frames s1) s1 Hs1) as (s' & Hrun & _).
  { intros i Hi. rewrite (sh_frames n s1 Hs1) in Hi. by apply elem_of_range. }
  exists s'. rewrite play_frames. erewrite bind_run by exact Hinit.
  by rewrite <- (kept_self _ _ Hk).
Qed.

(** ** The end-to-end scenarios of the specification *)

Example small_step_frame_4 :
  (pc_offsets <$> scat (update 4 small_step).2) = Some [(0%float, 0%float)].
Proof. vm_compute. reflexivity. Qed.

Example small_step_frame_5 :
  (pc_offsets <$> scat (run_frames [3; 4; 5] small_step).2)
  = Some [(0.05%float, 0.05%float)].
Proof. vm_compute. reflexivity. Qed.

Example big_step_frames :
  (pc_offsets <$> scat (update 3 big_step).2) = Some [(0%float, 0%float)] /\
  (pc_offsets <$> scat (update 4 big_step).2) = Some [(1%float, 1%float)] /\
  (pc_offsets <$> scat (update 5 big_step).2) = Some [(1%float, 1%float)].
Proof. vm_compute. auto. Qed.

(** * The claims *)

(** ** C1: interpolation frames *)

(** C1. On every interpolation frame [i] (i mod (paused + animated) >=
    paused) of a well-shaped animation whose segment index [i // framedelta]
    can subscript the snapshots, and whose step t = i mod framedelta -
    paused and count [animated] fit 64-bit integers, [update] completes
    and shows each point at prev + (next - prev) * t / animated, where [t]
    and [animated] enter as the nearest [float64], when both its absolute
    x-delta and y-delta between the snapshots prev_idx and next_idx are
    <= 0.25 (more generally, when neither exceeds 0.25), and exactly at its
    position in snapshot next_idx when either exceeds 0.25. *)
Theorem interpolation_frame_offsets (n : nat) (s : state) (i : Z) :
  shaped n s = true ->
  framedelta s <> 0 ->
  - Z.of_nat (length (position s)) < i / framedelta s
    < Z.of_nat (length (position s)) ->
  paused s <= i mod framedelta s ->
  i mod framedelta s - paused s < 2 ^ 63 ->
  - 2 ^ 63 < animated s < 2 ^ 63 ->
  let t := nearest_float64 (i mod framedelta s - paused s) in
  let k := nearest_float64 (animated s) in
  exists s' sc' prev next,
    update i s = (Ok tt, s') /\
    snapshot s (i / framedelta s - 1) = Some prev /\
    snapshot s (i / framedelta s) = Some next /\
    scat s' = Some sc' /\
    length prev = n /\ length next = n /\ length (pc_offsets sc') = n /\
    forall j p q, prev !! j = Some p -> next !! j = Some q ->
      (PrimFloat.leb (abs_delta p.1 q.1) 0.25%float = true ->
       PrimFloat.leb (abs_delta p.2 q.2) 0.25%float = true ->
       pc_offsets sc' !! j = Some (lerp t k p.1 q.1, lerp t k p.2 q.2)) /\
      (gt (abs_delta p.1 q.1) 0.25%float = false ->
       gt (abs_delta p.2 q.2) 0.25%float = false ->
       pc_offsets sc' !! j = Some (lerp t k p.1 q.1, lerp t k p.2 q.2)) /\
      (gt (abs_delta p.1 q.1) 0.25%float = true \/
       gt (abs_delta p.2 q.2) 0.25%float = true ->
       pc_offsets sc' !! j = Some q).
Proof.
  intros Hs%shaped_Shaped Hfd Hni Hp _ _ t k.
  destruct (update_move_run n s i Hs Hfd Hni Hp)
    as (prev & next & sc & szs & r & ft & txts & Hprev & Hnp & Hnext & Hnn
        & _ & _ & _ & _ & _ & Hrun).
  rewrite !of_int_nearest in Hrun. fold t k in Hrun.
  eexists _, _, prev, next. split; [exact Hrun |].
  split; [done |]. split; [done |]. split; [reflexivity |].
  split; [done |]. split; [done |]. simpl.
  split; [rewrite length_zip_with; lia |].
  intros j p q Hp' Hq'.
  rewrite lookup_zip_with, Hp'. simpl. rewrite Hq'. simpl. fold t k.
  assert (far p q = false -> blend t k p q = (lerp t k p.1 q.1, lerp t k p.2 q.2))
    as Hnear by (unfold blend; by intros ->).
  split; [| split].
  - intros H1 H2. by rewrite Hnear by (by apply near_not_far).
  - intros H1 H2. rewrite Hnear; [done |]. unfold far. by rewrite H1, H2.
  - intros Hfar. unfold blend.
    replace (far p q) with true; [done |].
    unfold far. destruct Hfar as [-> | ->]; [done | by rewrite orb_true_r].
Qed.

Lemma interpolation_frame_offsets_witness :
  exists s' sc',
    update 5 small_step = (Ok tt, s') /\
    scat s' = Some sc' /\
    pc_offsets sc' !! 0%nat
    = Some (lerp (nearest_float64 1) (nearest_float64 2) 0%float 0.1%float,
            lerp (nearest_float64 1) (nearest_float64 2) 0%float 0.1%float).
Proof.
  destruct (interpolation_frame_offsets 1 small_step 5)
    as (s' & sc' & prev & next & Hrun & Hprev & Hnext & Hsc & _ & _ & _ & Hj).
  - vm_compute. reflexivity.
  - vm_compute. discriminate.
  - vm_compute. split; reflexivity.
  - vm_compute. discriminate.
  - vm_compute. reflexivity.
  - vm_compute. split; reflexivity.
  - exists s', sc'. split; [exact Hrun |]. split; [exact Hsc |].
    injection Hprev as <-. injection Hnext as <-.
    apply (Hj 0%nat (0%float, 0%float) (0.1%float, 0.1%float)); reflexivity.
Defined.

(** ** C2: the sizes shown *)

(** On a driven frame of a well-shaped animation the sizes the scatter
    shows are the ones it had; the size array of the segment only lands in
    the instance dictionary, under the mangled name. *)
Lemma update_keeps_shown_sizes n (s : state) i :
  Shaped n s -> framedelta s <= i < numframes s ->
  exists s' sc sc', update i s = (Ok tt, s') /\
                    scat s = Some sc /\ scat s' = Some sc' /\
                    pc_sizes sc' = pc_sizes sc.
Proof.
  intros Hs Hi. destruct (driven_indices n s i Hs Hi) as (Hfd & Hni).
  destruct (Z.lt_ge_cases (i mod framedelta s) (paused s)) as [Hp | Hp].
  - destruct (sh_scat n s Hs) as [sc Hsc].
    exists (after_debug i (after_lines i s)), sc, sc.
    split; [apply (update_pause_run n); [done | lia | done] | done].
  - destruct (update_move_run n s i Hs ltac:(lia) ltac:(lia) Hp)
      as (prev & next & sc & szs & r & ft & txts & _ & _ & _ & _ & Hsc & _ & _
          & _ & _ & Hrun).
    eexists _, sc, _. split; [exact Hrun |]. by repeat split.
Qed.

(** C2 fails on [big_step], whose sizes are [[5], [9]]: frame 4 lies in
    segment 1 and is an interpolation frame, yet after it the scatter still
    shows size 5, not [sizes[1] = [9]]; the reference to [sizes[1]]
    (location 1 of the size heap) sits in the dictionary of the scatter
    under [_ScatterAnimation__sizes], which nothing reads. *)
Example sizes_not_shown :
  (run_frames [3; 4] big_step).1 = Ok tt /\
  4 / framedelta big_step = 1 /\
  size_snapshot big_step 1 = Some [9%float] /\
  (pc_sizes <$> scat (run_frames [3; 4] big_step).2) = Some [5%float] /\
  (scat (run_frames [3; 4] big_step).2 ≫= fun sc => pc_dict sc !! mangled_sizes)
    = Some 1%nat.
Proof. vm_compute. repeat split; reflexivity. Qed.

(** ** C3: pause frames *)

(** C3. Running [update] over pause frames (i mod (paused + animated) <
    paused), one or a whole pause window of them, leaves the displayed
    scatter, hence its positions and its sizes, exactly as it was at the
    start: the frames complete on a well-shaped animation, and even a frame
    that raises has not touched the scatter. *)
Theorem pause_frames_keep_scatter (n : nat) (s : state) (fs : list Z) :
  (forall i, i ∈ fs -> i mod framedelta s < paused s) ->
  scat (run_frames fs s).2 = scat s /\
  (shaped n s = true -> framedelta s <> 0 ->
   exists s', run_frames fs s = (Ok tt, s') /\
              (pc_offsets <$> scat s') = (pc_offsets <$> scat s) /\
              (pc_sizes <$> scat s') = (pc_sizes <$> scat s)).
Proof.
  intros Hfs. split.
  - by destruct (scat_kept_pause_frames fs s Hfs).
  - intros Hs%shaped_Shaped Hfd.
    destruct (run_pause_frames n fs s Hs Hfd Hfs) as (s' & Hrun & Hsc & _).
    exists s'. by rewrite Hsc.
Qed.

Lemma pause_frames_keep_scatter_witness :
  exists s', run_frames [3] big_step = (Ok tt, s') /\
             (pc_offsets <$> scat s') = (pc_offsets <$> scat big_step) /\
             (pc_sizes <$> scat s') = (pc_sizes <$> scat big_step).
Proof.
  apply (proj2 (pause_frames_keep_scatter 1 big_step [3]
                  ltac:(intros i ->%list_elem_of_singleton; vm_compute; reflexivity))).
  - vm_compute. reflexivity.
  - vm_compute. discriminate.
Defined.

(** ** C4: the frame count and the driven frames *)

(** C4. For [N] snapshots, pause [p] and interpolation [k], the object
    built by [__init__] has [numframes = (p + k) * N]; the frames given to
    the animation driver, over which [play] runs [update], are exactly the
    counters [i] with [p + k <= i < (p + k) * N], each once and in
    increasing order; so no frame of segment 0 (0 <= i < p + k), and in
    particular none of its motion window, is ever updated. *)
Theorem init_frame_count (h2 : list arr2) (h1 : list arr1) (a : args) :
  let s := __init__ h2 h1 a in
  let seg := paused a + animated a in
  let N := Z.of_nat (length (position a)) in
  framedelta s = seg /\
  numframes s = seg * N /\
  anim_frames s = range seg (seg * N) /\
  play s = (run! initScat in run_frames (range seg (seg * N))) s /\
  (forall i, i ∈ anim_frames s <-> seg <= i < seg * N) /\
  NoDup (anim_frames s) /\
  (forall j i, anim_frames s !! j = Some i -> i = seg + Z.of_nat j) /\
  (forall i, i ∈ anim_frames s -> ~ (0 <= i < seg)) /\
  (forall i, i ∈ anim_frames s -> 0 < seg -> 1 <= i / seg).
Proof.
  intros s seg N.
  split; [done |]. split; [done |]. split; [done |].
  split; [apply play_frames |].
  split; [intros i; apply elem_of_range |].
  split; [apply range_NoDup |].
  split.
  { intros j i. simpl. unfold range. rewrite list_lookup_fmap.
    destruct (seq 0 _ !! j) as [k |] eqn:Hk; [| done].
    apply lookup_seq in Hk as [-> _]. by intros [= <-]. }
  split.
  - intros i Hi%elem_of_range. lia.
  - intros i Hi%elem_of_range Hseg. apply Z.div_le_lower_bound; lia.
Qed.

(** ** C5: the connecting lines *)

(** C5, as stated, fails on a single snapshot: with [lines=True] and a
    point above the threshold there is a line to draw, but the frame
    sequence is empty, frame [numframes - 1 = 2] is never sent, and a whole
    pass of the animation completes without any line on the axes. *)
Lemma single_snapshot_draws_no_line :
  lines single_snapshot_input = true /\
  well_formed 1 single_snapshot_input = true /\
  numframes single_snapshot_input - 1 = 2 /\
  anim_frames single_snapshot_input = [] /\
  (play single_snapshot_input).1 = Ok tt /\
  connecting_lines single_snapshot_input
  = [mkLine2D (0%float, 0%float) (0%float, 0%float)] /\
  ax_lines (ax (play single_snapshot_input).2) = [].
Proof. vm_compute. repeat split; reflexivity. Qed.

(** C5, amended. With line drawing enabled on a well-shaped animation
    whose frame counts fit 64-bit integers, [update] adds lines to the
    axes at frame [numframes - 1] and at no other driven frame; when there
    is a driven frame at all
    (framedelta < numframes: at least two snapshots), a pass over the
    driven frames draws them exactly once, and otherwise the pass is empty
    and draws none; the lines are one segment per point whose frame-0 size
    is strictly greater than the threshold, from its frame-0 position to
    its position in the last snapshot. *)
Theorem lines_drawn_once_at_last_frame (n : nat) (s : state) :
  shaped n s = true -> lines s = true -> ints_fit s = true ->
  (forall i, framedelta s <= i < numframes s ->
     exists s', update i s = (Ok tt, s') /\
                ax_lines (ax s') =
                  ax_lines (ax s) ++
                  (if i =? numframes s - 1 then connecting_lines s else [])) /\
  (framedelta s < numframes s ->
     exists s', run_frames (anim_frames s) s = (Ok tt, s') /\
                ax_lines (ax s') = ax_lines (ax s) ++ connecting_lines s) /\
  (forall ln, ln ∈ connecting_lines s <->
     exists a0 al s0 j p q z,
       snapshot s 0 = Some a0 /\ snapshot s (-1) = Some al /\
       size_snapshot s 0 = Some s0 /\
       a0 !! j = Some p /\ al !! j = Some q /\ s0 !! j = Some z /\
       gt z (threshold s) = true /\
       ln = mkLine2D (p.1, q.1) (p.2, q.2)) /\
  (numframes s <= framedelta s ->
     anim_frames s = [] /\ run_frames (anim_frames s) s = (Ok tt, s)).
Proof.
  intros Hs%shaped_Shaped Hlines _. split; [| split; [| split]].
  - intros i Hi.
    destruct (update_driven n s i Hs Hi) as (s' & Hrun & _ & _ & Hax).
    exists s'. split; [done |].
    rewrite Hax, ax_lines_after_lines. unfold lines_at. by rewrite Hlines.
  - intros Hne.
    destruct (run_driven n (anim_frames s) s Hs) as (s' & Hrun & _ & _ & Hax).
    { intros i Hi. rewrite (sh_frames n s Hs) in Hi. by apply elem_of_range. }
    exists s'. split; [done |].
    by rewrite Hax, (sh_frames n s Hs), lines_at_pass, Hlines.
  - intros ln. pose proof (sh_nonempty n s Hs) as Hne.
    destruct (Shaped_snapshot n s 0 Hs) as (a0 & Ha0 & _); [lia |].
    destruct (Shaped_snapshot_last n s Hs) as (al & Hal & _).
    destruct (Shaped_size_snapshot n s 0 Hs) as (? & ? & s0 & _ & _ & _ & _ & Hs0); [lia |].
    unfold connecting_lines. rewrite Ha0, Hal, Hs0, elem_of_segments. split.
    + intros (j & p & q & z & ?). by exists a0, al, s0, j, p, q, z.
    + intros (a0' & al' & s0' & j & p & q & z & [= <-] & [= <-] & [= <-] & ?).
      by exists j, p, q, z.
  - intros Hle.
    assert (anim_frames s = []) as ->; [| done].
    rewrite (sh_frames n s Hs). unfold range.
    by replace (Z.to_nat (numframes s - framedelta s)) with 0%nat by lia.
Qed.

Example two_points_lines :
  connecting_lines two_points
  = [mkLine2D (0.5%float, 0.5%float) (0.5%float, 0.75%float)].
Proof. vm_compute. reflexivity. Qed.

Lemma lines_drawn_once_at_last_frame_witness :
  exists s', run_frames (anim_frames two_points) two_points = (Ok tt, s') /\
             ax_lines (ax s') = ax_lines (ax two_points) ++ connecting_lines two_points.
Proof.
  apply (lines_drawn_once_at_last_frame 2 two_points).
  - vm_compute. reflexivity.
  - vm_compute. reflexivity.
  - vm_compute. reflexivity.
  - vm_compute. reflexivity.
Defined.

(** ** C6: the caption *)


(** C6 fails at initialization: [initScat] shows as caption the first text
    label, ["point"], where the frame label of snapshot 0 is ["first"], and
    raises [TypeError] when frame labels are given without text labels.
    The interpolation frames do set the caption: after frame 4 it is
    ["second"]. *)
Example caption_is_first_text_label :
  (initScat (captioned_input (Some ["point"]))).1 = Ok tt /\
  (text_s <$> frame_text (initScat (captioned_input (Some ["point"]))).2)
    = Some (Str "point") /\
  (frame_labels (captioned_input (Some ["point"])) ≫= fun fl => fl !! 0%nat)
    = Some "first" /\
  (initScat (captioned_input None)).1 = Raise TypeError /\
  frame_text (initScat (captioned_input None)).2 = None /\
  (text_s <$> frame_text
     (run_frames [3; 4] (initScat (captioned_input (Some ["point"]))).2).2)
    = Some (Str "second").
Proof. vm_compute. repeat split; reflexivity. Qed.

(** ** C7: the shadow *)

(** C7, as stated, fails: the shadow drawn for [two_points_input] holds
    both points, the first of which has frame-0 size 3, below the threshold
    5; a shadow without the small points would hold the second point
    only. *)
Lemma shadow_keeps_small_points :
  shadows two_points_input = true /\
  (initScat two_points_input).1 = Ok tt /\
  size_snapshot two_points_input 0 = Some [3%float; 7%float] /\
  gt 3%float (threshold two_points_input) = false /\
  (pc_offsets <$> ax_collections (ax (initScat two_points_input).2))
    = [[(0%float, 0%float); (0.5%float, 0.5%float)]] /\
  (pc_offsets <$> ax_collections (ax (initScat two_points_input).2))
    <> [[(0.5%float, 0.5%float)]].
Proof. vm_compute. repeat split; try reflexivity. discriminate. Qed.

(** C7, amended. With shadows enabled, an [initScat] that returns has
    added to the axes, last, a scatter of every point of the first
    snapshot, at its frame-0 position and with its frame-0 size, whatever
    that size and the threshold are, drawn with alpha 0.25. *)
Theorem shadow_shows_every_point (s s' : state) :
  shadows s = true -> initScat s = (Ok tt, s') ->
  exists a0 s0 before sh,
    snapshot s 0 = Some a0 /\ size_snapshot s 0 = Some s0 /\
    ax_collections (ax s') = before ++ [sh] /\
    pc_offsets sh = a0 /\ pc_sizes sh = s0 /\ pc_alpha sh = 0.25%float.
Proof.
  intros Hsh (s1 & a0 & cv & s0 & _ & Ha0 & Hs0 & _ & ->)%initScat_Ok_inv.
  rewrite Hsh. exists a0, s0, (ax_collections (ax s1)), (shadow_scatter s a0 cv s0).
  repeat split; try done. simpl. apply combine_columns.
Qed.

Lemma shadow_shows_every_point_witness :
  exists a0 s0 before sh,
    snapshot two_points_input 0 = Some a0 /\
    size_snapshot two_points_input 0 = Some s0 /\
    ax_collections (ax two_points) = before ++ [sh] /\
    pc_offsets sh = a0 /\ pc_sizes sh = s0 /\ pc_alpha sh = 0.25%float.
Proof.
  apply (shadow_shows_every_point two_points_input two_points).
  - reflexivity.
  - vm_compute. reflexivity.
Defined.

(** ** C8: no sizes *)

(** X17. [initScat] never returns without sizes: line 117 subscripts
    them. *)
Lemma initScat_needs_sizes (s : state) :
  sizes s = None -> exists e s', initScat s = (Raise e, s').
Proof.
  intros Hsz. destruct (initScat s) as [[[] | e] s'] eqn:E; [| by exists e, s'].
  apply initScat_Ok_inv in E as (_ & _ & _ & s0 & _ & _ & Hs0 & _).
  unfold size_snapshot in Hs0. by rewrite Hsz in Hs0.
Qed.

(** C8 fails on the smallest input: one snapshot of one point and every
    other argument at its default, so [sizes=None], no text labels, no
    lines, threshold 0. [__init__] builds the object, and [initScat]
    raises [TypeError] at [s=self.sizes[0]] before any scatter exists. *)
Example initScat_without_sizes :
  sizes default_input = None /\
  text_labels default_input = None /\
  lines default_input = false /\
  (initScat default_input).1 = Raise TypeError /\
  scat (initScat default_input).2 = None.
Proof. vm_compute. repeat split; reflexivity. Qed.

(** ** C9: the caller's containers *)

(** C9. Whatever sequence of [initScat] and [update] calls is made, and
    wherever it stops, the lists of positions, sizes, frame labels and text
    labels the caller passed are the same objects with the same entries,
    every size array is as it was, and every position array that existed
    before the calls holds the same rows: the arrays [update] computes,
    the one its masked assignment writes into included, are new ones. *)
Theorem inputs_never_mutated (cs : list call) (s : state) :
  let s' := (for_each cs perform s).2 in
  position s' = position s /\
  sizes s' = sizes s /\
  frame_labels s' = frame_labels s /\
  text_labels s' = text_labels s /\
  heap1 s' = heap1 s /\
  (forall l a, heap2 s !! l = Some a -> heap2 s' !! l = Some a) /\
  (forall k a, snapshot s k = Some a -> snapshot s' k = Some a) /\
  (forall k, size_snapshot s' k = size_snapshot s k).
Proof.
  intros s'.
  assert (inputs_kept s s') as Hk.
  { apply (steps_for_each inputs_kept).
    intros [| i]; [apply steps_initScat_inputs | apply steps_update_inputs]. }
  pose proof (kept_self _ _ Hk) as Hself.
  repeat split; try (by rewrite Hself).
  - apply (kept_heap1 _ _ Hk).
  - intros l a. by apply inputs_kept_lookup.
  - intros k a. by apply snapshot_kept.
  - intros k. by apply size_snapshot_kept.
Qed.

(** ** C10: colours without text labels *)

Lemma raises_bind (R : relation state) `{!PreOrder R} {A B}
    (m : M A) (k : A -> M B) :
  steps R m -> (forall a, raises_keeping R (k a)) -> raises_keeping R (bind m k).
Proof.
  intros Hm Hk s. unfold bind. specialize (Hm s).
  destruct (m s) as [[a | e] s1]; simpl in *.
  - destruct (Hk a s1) as [He HR]. split; [done |]. by etransitivity.
  - split; [by exists e | done].
Qed.

Ltac steps_scat :=
  steps_skeleton scat_kept ltac:(apply steps_modify; intros; by split).

(** C10. With [colors=True] and [text_labels=None], [initScat] always
    ends in an exception, and no scatter has been created when it does:
    the colour index is [np.arange(len(self.text_labels))], and [len(None)]
    raises. *)
Theorem colors_need_text_labels (s : state) :
  colors s = true -> text_labels s = None ->
  exists e s', initScat s = (Raise e, s') /\ scat s' = scat s.
Proof.
  intros Hc Ht.
  assert ((exists e, (initScat s).1 = Raise e) /\ scat_kept s (initScat s).2) as [[e He] [_ Hs]].
  { unfold initScat.
    change (bind get ?k s) with (k s s). cbv beta.
    rewrite Hc, Ht.
    apply (raises_bind scat_kept); [steps_scat | intros _].
    apply (raises_bind scat_kept); [steps_scat | intros _].
    apply (raises_bind scat_kept); [steps_scat | intros _].
    apply (raises_bind scat_kept); [unfold call_helper; steps_scat | intros _].
    apply (raises_bind scat_kept); [steps_scat | intros _].
    apply (raises_bind scat_kept); [steps_scat | intros _].
    intros st. simpl. split; [by exists TypeError | done]. }
  destruct (initScat s) as [o s'] eqn:E. simpl in *. subst o. by exists e, s'.
Qed.

Example colored_input_raises : (initScat colored_input).1 = Raise TypeError.
Proof. vm_compute. reflexivity. Qed.

Lemma colors_need_text_labels_witness :
  exists e s', initScat colored_input = (Raise e, s') /\ scat s' = scat colored_input.
Proof. apply (colors_need_text_labels colored_input); reflexivity. Defined.

(** * Further properties of the code

    Behaviour of [__init__], [initScat] and [update] that follows from the
    source and that the claims above do not state. *)

(** ** The text labels *)

(** X1. On well-formed inputs [initScat] builds one label slot per entry
    of [text_labels], in order (none without text labels): slot [k] holds a
    label with text [text_labels[k]] at the frame-0 position of point [k]
    when the frame-0 size of point [k] is strictly greater than the
    threshold, and [None] otherwise, so that slot and point indices stay
    aligned. *)
Theorem initScat_label_slots (n : nat) (s : state) :
  well_formed n s = true ->
  exists s' a0 s0 txts,
    initScat s = (Ok tt, s') /\
    snapshot s 0 = Some a0 /\ size_snapshot s 0 = Some s0 /\
    ax_texts s' = Some txts /\
    length txts = length (default [] (text_labels s)) /\
    forall k lbl, default [] (text_labels s) !! k = Some lbl ->
      exists p z, a0 !! k = Some p /\ s0 !! k = Some z /\
        txts !! k = Some (if gt z (threshold s)
                          then Some (mkText p (Str lbl) None)
                          else None).
Proof.
  intros Hwf.
  destruct (initScat_run n s Hwf) as (a0 & s0 & Ha0 & Hs0 & Hna & Hns & Hrun).
  assert (forall tl, text_labels s = Some tl -> (length tl <= n)%nat) as Hle.
  { intros tl Htl. unfold well_formed in Hwf. rewrite !andb_true_iff in Hwf.
    destruct Hwf as (((((_ & H5) & _) & _) & _) & _). rewrite Htl in H5.
    by apply Nat.leb_le. }
  eexists _, a0, s0, _. split; [exact Hrun |].
  split; [done |]. split; [done |].
  split; [unfold initialized; by destruct (shadows s) |].
  destruct (text_labels s) as [tl |]; simpl; [| done].
  split; [unfold label_slots; by rewrite length_imap |].
  intros k lbl Hk. specialize (Hle tl eq_refl).
  apply lookup_lt_Some in Hk as Hlt.
  destruct (lookup_lt_is_Some_2 a0 k) as [p Hp]; [lia |].
  destruct (lookup_lt_is_Some_2 s0 k) as [z Hz]; [lia |].
  exists p, z. split; [done |]. split; [done |].
  unfold label_slots. rewrite list_lookup_imap, Hk. simpl.
  unfold label_slot. by rewrite Hz, Hp.
Qed.

Lemma initScat_label_slots_witness :
  exists s', initScat labelled_input = (Ok tt, s') /\
             ax_texts s'
             = Some [None; Some (mkText (0.5%float, 0.5%float) (Str "b") None)].
Proof.
  destruct (initScat_label_slots 2 labelled_input)
    as (s' & a0 & s0 & txts & Hrun & Ha0 & Hs0 & Htx & Hlen & Hall).
  - vm_compute. reflexivity.
  - exists s'. split; [exact Hrun |]. rewrite Htx. f_equal.
    injection Ha0 as <-. injection Hs0 as <-.
    destruct (Hall 0%nat "a" eq_refl) as (p0 & z0 & [= <-] & [= <-] & H0).
    destruct (Hall 1%nat "b" eq_refl) as (p1 & z1 & [= <-] & [= <-] & H1).
    destruct txts as [| t0 [| t1 [| t2 txts]]]; try discriminate.
    simpl in H0, H1. injection H0 as ->. injection H1 as ->. reflexivity.
Defined.



(** *** Driven frames, one by one *)

(** What a driven frame does to a well-shaped state: nothing past the
    debug counter and the lines on a pause frame; on an interpolation
    frame, new offsets, the caption, the labels moved to the offsets, and
    the dictionary entry of the scatter. *)
Lemma update_driven_cases n (s : state) i :
  Shaped n s -> framedelta s <= i < numframes s ->
  update i s = (Ok tt, after_debug i (after_lines i s)) \/
  exists d o sc r ft txts,
    update i s = (Ok tt, after_move d o sc r ft txts (after_debug i (after_lines i s))) /\
    length o = n /\ scat s = Some sc /\
    match text_labels s with
    | Some _ => exists t, ax_texts s = Some t /\ txts = Some (moved_labels o t)
    | None => txts = ax_texts s
    end.
Proof.
  intros Hs Hi. destruct (driven_indices n s i Hs Hi) as (Hfd & Hni).
  destruct (Z.lt_ge_cases (i mod framedelta s) (paused s)) as [Hp | Hp].
  - left. apply (update_pause_run n); [done | lia | done].
  - right.
    destruct (update_move_run n s i Hs ltac:(lia) ltac:(lia) Hp)
      as (prev & next & sc & szs & r & ft & txts & _ & Hnp & _ & Hnn & Hsc & _ & _
          & _ & Hlab & Hrun).
    eexists _, _, sc, r, ft, txts. split; [exact Hrun |].
    split; [rewrite length_zip_with; lia |]. split; [done |].
    destruct (text_labels s); [| done].
    destruct Hlab as (t & t' & Ht & -> & _ & ->). by exists t.
Qed.

Lemma run_frames_app (fs1 fs2 : list Z) (s s1 : state) :
  run_frames fs1 s = (Ok tt, s1) ->
  run_frames (fs1 ++ fs2) s = run_frames fs2 s1.
Proof.
  unfold run_frames. revert s.
  induction fs1 as [| i fs1 IH]; intros s; simpl.
  - unfold ret. by intros [= ->].
  - unfold bind. destruct (update i s) as [[[] | e] s2]; [apply IH | discriminate].
Qed.

(** A relation that every driven frame keeps is kept by a run of them. *)
Lemma run_driven_inv n (R : relation state) `{!PreOrder R} (fs : list Z) (s : state) :
  (forall s1 i, Shaped n s1 -> framedelta s1 <= i < numframes s1 ->
                R s1 (update i s1).2) ->
  Shaped n s ->
  (forall i, i ∈ fs -> framedelta s <= i < numframes s) ->
  exists s', run_frames fs s = (Ok tt, s') /\ Shaped n s' /\ evolves s s' /\ R s s'.
Proof.
  intros HR. unfold run_frames. revert s.
  induction fs as [| i fs IH]; intros s Hs Hfs.
  - exists s. simpl. split; [done |]. split; [done |].
    split; [apply evolves_refl | reflexivity].
  - destruct (update_driven n s i Hs (Hfs i ltac:(by left)))
      as (s1 & Hrun & Hs1 & Hev & _).
    pose proof (HR s i Hs (Hfs i ltac:(by left))) as HR1.
    rewrite Hrun in HR1. simpl in HR1.
    pose proof (kept_self _ _ (ev_inputs _ _ Hev)) as Hself.
    destruct (IH s1 Hs1) as (s' & Hrun' & Hs' & Hev' & HR').
    { intros j Hj. rewrite Hself. apply Hfs. by right. }
    exists s'. simpl. erewrite bind_run by exact Hrun.
    split; [exact Hrun' |]. split; [done |].
    split; [by eapply evolves_trans | by etransitivity].
Qed.

Lemma same_label_refl (a : option Text) : same_label a a.
Proof. by destruct a. Qed.

Lemma same_label_trans (a b c : option Text) :
  same_label a b -> same_label b c -> same_label a c.
Proof.
  destruct a, b, c; simpl; try done. intros [H1 H2] [H3 H4]. split; congruence.
Qed.


#[local] Instance labels_kept_preorder : PreOrder labels_kept.
Proof.
  unfold labels_kept. split.
  - intros s. destruct (ax_texts s) as [t |]; constructor.
    apply Forall2_same_length_lookup. split; [done |].
    intros k a b Ha Hb. rewrite Ha in Hb. injection Hb as <-. apply same_label_refl.
  - intros s1 s2 s3 H1 H2.
    destruct H1 as [t1 t2 H1 |]; inversion H2 as [? t3 H3 |]; constructor.
    apply Forall2_same_length_lookup. split.
    + apply Forall2_length in H1, H3. congruence.
    + intros k a c Ha Hc.
      destruct (Forall2_lookup_l _ _ _ _ _ H1 Ha) as (b & Hb & Hab).
      destruct (Forall2_lookup_l _ _ _ _ _ H3 Hb) as (c' & Hc' & Hbc).
      rewrite Hc in Hc'. injection Hc' as <-. by eapply same_label_trans.
Qed.

#[local] Instance counter_kept_preorder : PreOrder counter_kept.
Proof.
  unfold counter_kept. split.
  - intros s. by destruct (idx_counter s); constructor.
  - intros s1 s2 s3 H1 H2.
    destruct H1 as [t1 t2 [H1 H1'] |]; inversion H2 as [? t3 [H3 H3'] |]; constructor.
    split; congruence.
Qed.

#[local] Instance shown_sizes_kept_preorder : PreOrder shown_sizes_kept.
Proof.
  unfold shown_sizes_kept. split.
  - by intros s.
  - intros s1 s2 s3 H1 H2. congruence.
Qed.


Lemma update_counter_kept n (s : state) i :
  Shaped n s -> framedelta s <= i < numframes s -> counter_kept s (update i s).2.
Proof.
  intros Hs Hi.
  assert (counter_kept s (after_debug i (after_lines i s))) as Hk.
  { unfold counter_kept. simpl.
    destruct (debug s); [| change (counter_kept s s); reflexivity].
    by destruct (idx_counter s); constructor. }
  by destruct (update_driven_cases n s i Hs Hi)
    as [-> | (d & o & sc & r & ft & txts & -> & _)].
Qed.

Lemma update_shown_sizes_kept n (s : state) i :
  Shaped n s -> framedelta s <= i < numframes s -> shown_sizes_kept s (update i s).2.
Proof.
  intros Hs Hi.
  destruct (update_driven_cases n s i Hs Hi)
    as [-> | (d & o & sc & r & ft & txts & -> & _ & Hsc & _)];
    unfold shown_sizes_kept; simpl; [done |]. by rewrite Hsc.
Qed.



(** ** Frames outside the driven range *)

Lemma index_last {A} (l : list A) :
  l <> [] -> index l (-1) = index l (Z.of_nat (length l) - 1).
Proof.
  intros Hl. assert (0 < length l)%nat as Hlen by (destruct l; [done | simpl; lia]).
  unfold index. simpl.
  replace (Z.of_nat (length l) - 1 <? 0) with false by (symmetry; apply Z.ltb_ge; lia).
  by replace (Z.of_nat (length l) + -1) with (Z.of_nat (length l) - 1) by lia.
Qed.

Lemma index_past_end {A} (l : list A) z :
  Z.of_nat (length l) <= z -> index l z = Raise IndexError.
Proof.
  intros Hz. unfold index.
  replace (z <? 0) with false by (symmetry; apply Z.ltb_ge; lia).
  replace (Z.of_nat (length l) <=? z) with true by (symmetry; apply Z.leb_le; lia).
  by rewrite orb_true_r.
Qed.

(** X4. [update] called on an interpolation frame of segment 0
    (paused <= i < framedelta), which the driver never sends, completes on
    a well-shaped animation whose step i - paused and count [animated] fit
    64-bit integers, and blends from the LAST snapshot to the first:
    [prev_idx] is -1 there, and Python's negative index wraps around. The
    step and the count enter the blend as the nearest [float64]. *)
Theorem first_segment_blends_from_last (n : nat) (s : state) (i : Z) :
  shaped n s = true ->
  0 <= paused s <= i -> i < framedelta s ->
  i - paused s < 2 ^ 63 -> - 2 ^ 63 < animated s < 2 ^ 63 ->
  exists s' sc' last first,
    update i s = (Ok tt, s') /\
    snapshot s (Z.of_nat (length (position s)) - 1) = Some last /\
    snapshot s 0 = Some first /\
    scat s' = Some sc' /\
    pc_offsets sc'
    = zip_with (blend (nearest_float64 (i - paused s))
                      (nearest_float64 (animated s))) last first.
Proof.
  intros Hs%shaped_Shaped Hp Hi _ _.
  pose proof (sh_nonempty n s Hs) as Hne.
  assert (i / framedelta s = 0) as Hdiv by (apply Z.div_small; lia).
  assert (i mod framedelta s = i) as Hmod by (apply Z.mod_small; lia).
  destruct (update_move_run n s i Hs ltac:(lia) ltac:(lia) ltac:(lia))
    as (prev & next & sc & szs & r & ft & txts & Hprev & _ & Hnext & _ & _ & _ & _
        & _ & _ & Hrun).
  rewrite Hdiv in Hprev, Hnext. rewrite Hmod, !of_int_nearest in Hrun.
  eexists _, _, prev, next. split; [exact Hrun |].
  split; [| split; [done |]; split; reflexivity].
  unfold snapshot in *. simpl in Hprev.
  rewrite <- index_last; [done |]. intros E. rewrite E in Hne. simpl in Hne. lia.
Qed.

Lemma first_segment_blends_from_last_witness :
  exists s',
    update 1 small_step = (Ok tt, s') /\
    (pc_offsets <$> scat s')
    = Some (zip_with (blend (nearest_float64 0) (nearest_float64 2))
                     [(0.1%float, 0.1%float)] [(0%float, 0%float)]).
Proof.
  destruct (first_segment_blends_from_last 1 small_step 1)
    as (s' & sc' & last & first & Hrun & Hlast & Hfirst & Hsc & Ho).
  - vm_compute. reflexivity.
  - vm_compute. split; discriminate.
  - vm_compute. reflexivity.
  - vm_compute. reflexivity.
  - vm_compute. split; reflexivity.
  - exists s'. split; [exact Hrun |]. rewrite Hsc. simpl. rewrite Ho.
    injection Hlast as <-. injection Hfirst as <-. reflexivity.
Defined.

(** X5. A frame number at or past [numframes] is not refused as such: on
    an interpolation step of a well-shaped animation [update] raises
    [IndexError] when it subscripts the snapshots (line 151), after the
    debug counter has been set and before the scatter, the caption, the
    labels or the heap of arrays have been touched. *)
Theorem frame_past_end_raises (n : nat) (s : state) (i : Z) :
  shaped n s = true ->
  0 < framedelta s -> numframes s <= i -> paused s <= i mod framedelta s ->
  exists s',
    update i s = (Raise IndexError, s') /\
    scat s' = scat s /\ frame_text s' = frame_text s /\
    ax_texts s' = ax_texts s /\ heap2 s' = heap2 s /\
    idx_counter s' = (if debug s then set_text (Int i) <$> idx_counter s
                      else idx_counter s).
Proof.
  intros Hs%shaped_Shaped Hfd Hi Hp.
  exists (after_debug i (after_lines i s)). split; [| done].
  assert (Z.of_nat (length (position s)) <= i / framedelta s) as Hni.
  { apply Z.div_le_lower_bound; [done |]. by rewrite <- (sh_numframes n s Hs). }
  unfold update.
  rewrite (bind_run get _ s s s) by done.
  erewrite bind_run.
  2:{ apply lift_run. unfold floordiv.
      replace (framedelta s =? 0) with false by (symmetry; apply Z.eqb_neq; lia).
      reflexivity. }
  erewrite bind_run by (by apply (lines_block_run n)).
  erewrite bind_run.
  2:{ apply debug_block_run. intros Hd. simpl. by apply (sh_debug n s Hs). }
  fold (after_debug i (after_lines i s)).
  erewrite bind_run.
  2:{ apply lift_run. unfold modulo.
      replace (framedelta s =? 0) with false by (symmetry; apply Z.eqb_neq; lia).
      reflexivity. }
  replace (i mod framedelta s <? paused s) with false
    by (symmetry; apply Z.ltb_ge; lia).
  unfold bind at 1, interpolate at 1, bind at 1, get at 1, bind at 1, lift at 1.
  simpl. by rewrite index_past_end.
Qed.

Lemma frame_past_end_raises_witness :
  exists s', update 7 small_step = (Raise IndexError, s') /\
             scat s' = scat small_step /\ heap2 s' = heap2 small_step.
Proof.
  destruct (frame_past_end_raises 1 small_step 7)
    as (s' & Hrun & Hsc & _ & _ & Hh & _).
  - vm_compute. reflexivity.
  - vm_compute. reflexivity.
  - vm_compute. discriminate.
  - vm_compute. discriminate.
  - by exists s'.
Defined.

(** ** Degenerate frame counts *)

(** X6. When (paused + animated) * (N - 1) <= 0 for [N] snapshots, as with
    a single snapshot or with [paused + animated = 0], [__init__] gives
    the driver an empty frame sequence, and a pass of the animation is the
    call of [initScat] alone: [update] is never called. *)
Theorem no_driven_frames (h2 : list arr2) (h1 : list arr1) (a : args) :
  (paused a + animated a) * (Z.of_nat (length (position a)) - 1) <= 0 ->
  anim_frames (__init__ h2 h1 a) = [] /\
  play (__init__ h2 h1 a) = initScat (__init__ h2 h1 a).
Proof.
  intros H.
  assert (anim_frames (__init__ h2 h1 a) = []) as Hnil.
  { simpl. unfold range.
    by replace (Z.to_nat _) with 0%nat by lia. }
  split; [done |].
  rewrite play_frames, Hnil. unfold bind, run_frames. simpl.
  by destruct (initScat _) as [[[] | e] s'].
Qed.

Lemma no_driven_frames_witness :
  anim_frames default_input = [] /\ play default_input = initScat default_input.
Proof.
  apply (no_driven_frames [[(0%float, 0%float)]] [] (defaults [0%nat])).
  vm_compute. discriminate.
Defined.

(** X7. With a frame delta of zero ([paused + animated = 0]) a run of
    [update] over any frames stops at the first one with
    [ZeroDivisionError], raised by the first statement (line 128), and
    changes nothing. *)
Theorem zero_framedelta_raises (s : state) (fs : list Z) :
  framedelta s = 0 -> fs <> [] ->
  run_frames fs s = (Raise ZeroDivisionError, s).
Proof.
  intros Hfd Hfs. destruct fs as [| i fs]; [done |].
  unfold run_frames. simpl.
  unfold bind at 1, update, bind at 1, get, bind at 1, lift, floordiv.
  by rewrite Hfd.
Qed.

Lemma zero_framedelta_raises_witness :
  run_frames [0]
    (__init__ [[(0%float, 0%float)]] []
       {| position := [0%nat]; sizes := None; frame_labels := None;
          text_labels := None; animated := 0; paused := 0;
          threshold := 0%float; colors := false; cmap := None;
          shadows := false; lines := false; axis := []; title := None;
          xlabel := None; ylabel := None; repeat_ := true; fontsize := 16;
          frame_loc := (0%float, 0%float); figsize := None; debug := false;
          helpers := None |})
  = (Raise ZeroDivisionError,
     __init__ [[(0%float, 0%float)]] []
       {| position := [0%nat]; sizes := None; frame_labels := None;
          text_labels := None; animated := 0; paused := 0;
          threshold := 0%float; colors := false; cmap := None;
          shadows := false; lines := false; axis := []; title := None;
          xlabel := None; ylabel := None; repeat_ := true; fontsize := 16;
          frame_loc := (0%float, 0%float); figsize := None; debug := false;
          helpers := None |}).
Proof. apply zero_framedelta_raises; [reflexivity | discriminate]. Defined.

(** ** The debug counter *)

(** X8. With [debug=True] on well-formed inputs, [initScat] creates the
    frame counter with text "0" at (0.25, 0.35) in font size 24, and after
    any run of driven frames the counter shows, at the same place and in
    the same font size, the number of the last frame run. *)
Theorem debug_counter_shows_frame (n : nat) (s : state) (fs : list Z) (i : Z) :
  well_formed n s = true -> debug s = true ->
  (forall j, j ∈ fs ++ [i] -> framedelta s <= j < numframes s) ->
  exists s1 s2,
    initScat s = (Ok tt, s1) /\
    idx_counter s1 = Some (mkText (0.25%float, 0.35%float) (Str "0") (Some 24)) /\
    run_frames (fs ++ [i]) s1 = (Ok tt, s2) /\
    idx_counter s2 = Some (mkText (0.25%float, 0.35%float) (Int i) (Some 24)).
Proof.
  intros Hwf Hd Hfs.
  destruct (initScat_run n s Hwf) as (a0 & s0 & _ & _ & _ & _ & Hinit).
  pose proof (initialized_Shaped n s a0 s0 Hwf) as Hs1.
  set (s1 := initialized s a0 s0) in *.
  assert (self s1 = self s) as Hself
    by (unfold s1, initialized; by destruct (shadows s)).
  assert (idx_counter s1
          = Some (mkText (0.25%float, 0.35%float) (Str "0") (Some 24))) as Hc1.
  { unfold s1, initialized. destruct (shadows s); simpl; by rewrite Hd. }
  destruct (run_driven_inv n counter_kept fs s1 (update_counter_kept n) Hs1)
    as (s' & Hrun & Hs' & Hev & Hk).
  { intros j Hj. rewrite Hself. apply Hfs, elem_of_app. by left. }
  pose proof (kept_self _ _ (ev_inputs _ _ Hev)) as Hself'.
  unfold counter_kept in Hk. rewrite Hc1 in Hk.
  inversion Hk as [? t' [Hxy Hfont] Ht Ht' |]. simpl in Hxy, Hfont.
  assert (framedelta s' <= i < numframes s') as Hi.
  { rewrite Hself', Hself. apply Hfs, elem_of_app. right. by left. }
  assert (debug s' = true) as Hd' by (by rewrite Hself', Hself).
  assert (exists s2, update i s' = (Ok tt, s2) /\
                     idx_counter s2 = set_text (Int i) <$> idx_counter s')
    as (s2 & Hu & Hc2).
  { destruct (update_driven_cases n s' i Hs' Hi)
      as [Hu | (d & o & sc & r & ft & txts & Hu & _)];
      (eexists; split; [exact Hu |]); simpl; by rewrite Hd'. }
  exists s1, s2. split; [exact Hinit |]. split; [exact Hc1 |].
  rewrite (run_frames_app fs [i] s1 s' Hrun). unfold run_frames. simpl.
  erewrite bind_run by exact Hu. split; [reflexivity |].
  rewrite Hc2, <- Ht'. simpl. unfold set_text. by rewrite Hxy, Hfont.
Qed.

Lemma debug_counter_shows_frame_witness :
  exists s1 s2,
    initScat labelled_input = (Ok tt, s1) /\
    idx_counter s1 = Some (mkText (0.25%float, 0.35%float) (Str "0") (Some 24)) /\
    run_frames ([3] ++ [4]) s1 = (Ok tt, s2) /\
    idx_counter s2 = Some (mkText (0.25%float, 0.35%float) (Int 4) (Some 24)).
Proof.
  apply (debug_counter_shows_frame 2 labelled_input [3] 4).
  - vm_compute. reflexivity.
  - reflexivity.
  - intros j Hj. vm_compute in Hj.
    repeat (apply elem_of_cons in Hj as [-> | Hj]; [vm_compute; split; [discriminate | reflexivity] |]).
    by apply elem_of_nil in Hj.
Defined.

(** ** The animated scatter *)

(** X9. Whenever [initScat] returns, in whatever state it was called, the
    animated scatter it has created shows every point of the first
    snapshot with the first size array, with alpha 0.8, black edges, the
    colour map given to [__init__] and an empty instance dictionary; its
    colour index is 0 .. len(text_labels) - 1 when [colors] is set and
    absent otherwise. *)
Theorem initScat_scatter (s s' : state) :
  initScat s = (Ok tt, s') ->
  exists a0 s0 sc,
    snapshot s 0 = Some a0 /\ size_snapshot s 0 = Some s0 /\
    scat s' = Some sc /\
    pc_offsets sc = a0 /\ pc_sizes sc = s0 /\
    pc_alpha sc = 0.8%float /\ pc_animated sc = true /\
    pc_edgecolors sc = Some "k" /\ pc_cmap sc = cmap s /\ pc_dict sc = ∅ /\
    if colors s
    then exists tl, text_labels s = Some tl /\
                    pc_c sc = Some (range 0 (Z.of_nat (length tl)))
    else pc_c sc = None.
Proof.
  intros (s1 & a0 & cv & s0 & _ & Ha0 & Hs0 & Hcv & ->)%initScat_Ok_inv.
  exists a0, s0, (main_scatter s a0 cv s0).
  split; [done |]. split; [done |].
  split; [by destruct (shadows s) |].
  split; [apply combine_columns |].
  repeat (split; [done |]). simpl.
  destruct (colors s); [| done].
  destruct Hcv as (k & Hk & ->). unfold len in Hk.
  destruct (text_labels s) as [tl |]; [| discriminate].
  injection Hk as <-. by exists tl.
Qed.

Lemma initScat_scatter_witness :
  exists sc,
    scat labelled = Some sc /\
    pc_offsets sc = [(0%float, 0%float); (0.5%float, 0.5%float)] /\
    pc_sizes sc = [3%float; 7%float] /\
    pc_c sc = Some [0; 1].
Proof.
  destruct (initScat_scatter labelled_input labelled)
    as (a0 & s0 & sc & Ha0 & Hs0 & Hsc & Ho & Hsz & _ & _ & _ & _ & _ & Hc).
  - vm_compute. reflexivity.
  - exists sc. split; [exact Hsc |].
    injection Ha0 as <-. injection Hs0 as <-.
    split; [exact Ho |]. split; [exact Hsz |].
    simpl in Hc. destruct Hc as (tl & [= <-] & Hc). exact Hc.
Defined.

(** X10. On well-formed inputs a whole pass of the animation completes
    and the scatter still shows, at its end, the sizes of the first
    snapshot: no frame of the pass changes the sizes drawn. *)
Theorem pass_shows_first_sizes (n : nat) (s : state) :
  well_formed n s = true ->
  exists s' sc s0,
    play s = (Ok tt, s') /\ size_snapshot s 0 = Some s0 /\
    scat s' = Some sc /\ pc_sizes sc = s0.
Proof.
  intros Hwf.
  destruct (initScat_run n s Hwf) as (a0 & s0 & _ & Hs0 & _ & _ & Hinit).
  pose proof (initialized_Shaped n s a0 s0 Hwf) as Hs1.
  set (s1 := initialized s a0 s0) in *.
  assert (self s1 = self s) as Hself
    by (unfold s1, initialized; by destruct (shadows s)).
  assert (scat s1 = Some (main_scatter s a0 (color_index s) s0)) as Hsc1
    by (unfold s1, initialized; by destruct (shadows s)).
  destruct (run_driven_inv n shown_sizes_kept (anim_frames s) s1
              (update_shown_sizes_kept n) Hs1) as (s' & Hrun & Hs' & _ & Hk).
  { intros i Hi. rewrite <- Hself, (sh_frames n s1 Hs1) in Hi.
    by apply elem_of_range. }
  unfold shown_sizes_kept in Hk. rewrite Hsc1 in Hk.
  destruct (scat s') as [sc |] eqn:Hsc; [| discriminate].
  exists s', sc, s0. rewrite play_frames. erewrite bind_run by exact Hinit.
  split; [exact Hrun |]. split; [done |]. split; [done |].
  simpl in Hk. by injection Hk.
Qed.

Lemma pass_shows_first_sizes_witness :
  exists s' sc,
    play (__init__ [[(0%float, 0%float)]; [(1%float, 1%float)]]
                   [[5%float]; [9%float]]
                   (two_frames (Some [0%nat; 1%nat]))) = (Ok tt, s') /\
    scat s' = Some sc /\ pc_sizes sc = [5%float].
Proof.
  destruct (pass_shows_first_sizes 1
              (__init__ [[(0%float, 0%float)]; [(1%float, 1%float)]]
                        [[5%float]; [9%float]]
                        (two_frames (Some [0%nat; 1%nat]))))
    as (s' & sc & s0 & Hrun & Hs0 & Hsc & Hsz).
  - vm_compute. reflexivity.
  - exists s', sc. split; [exact Hrun |]. split; [exact Hsc |].
    rewrite Hsz. by injection Hs0.
Defined.

(** X11. On well-formed inputs with at least two snapshots, a segment
    length [framedelta = paused + animated] as [__init__] sets it, a pause
    of at least zero and at least one interpolation step, a pass of the
    animation completes and ends on the frame of local step
    [animated - 1] of the last segment: the offsets shown at its end are
    the blend of C1 from the last snapshot but one to the last snapshot at
    t = animated - 1, not at t = animated. *)
Theorem pass_ends_one_step_short (n : nat) (s : state) :
  well_formed n s = true ->
  framedelta s = paused s + animated s ->
  2 <= Z.of_nat (length (position s)) -> 0 <= paused s -> 1 <= animated s ->
  exists s' sc prev last,
    play s = (Ok tt, s') /\
    snapshot s (Z.of_nat (length (position s)) - 2) = Some prev /\
    snapshot s (Z.of_nat (length (position s)) - 1) = Some last /\
    scat s' = Some sc /\
    pc_offsets sc
    = zip_with (blend (nearest_float64 (animated s - 1))
                      (nearest_float64 (animated s))) prev last.
Proof.
  set (N := Z.of_nat (length (position s))). set (fd := framedelta s).
  intros Hwf Hfd HN Hp Ha. fold fd in Hfd.
  destruct (initScat_run n s Hwf) as (a0 & s0 & _ & _ & _ & _ & Hinit).
  pose proof (initialized_Shaped n s a0 s0 Hwf) as Hs1.
  set (s1 := initialized s a0 s0) in *.
  assert (self s1 = self s /\ heap2 s1 = heap2 s) as [Hself Hheap]
    by (unfold s1, initialized; by destruct (shadows s)).
  assert (forall k, snapshot s1 k = snapshot s k) as Hsnap
    by (intros k; unfold snapshot; by rewrite Hself, Hheap).
  assert (numframes s = fd * N) as Hnum.
  { pose proof (sh_numframes n s1 Hs1) as H. by rewrite Hself in H. }
  assert (anim_frames s = range fd (fd * N - 1) ++ [fd * N - 1]) as Hframes.
  { pose proof (sh_frames n s1 Hs1) as H. rewrite Hself, Hnum in H.
    rewrite H. fold fd.
    replace (fd * N) with (fd * N - 1 + 1) at 1 by lia.
    apply range_snoc. nia. }
  destruct (run_driven n (range fd (fd * N - 1)) s1 Hs1) as (s2 & Hrun & Hs2 & Hev & _).
  { intros i Hi%elem_of_range. rewrite Hself, Hnum. fold fd. lia. }
  pose proof (kept_self _ _ (ev_inputs _ _ Hev)) as Hself2.
  assert (framedelta s2 = fd /\ paused s2 = paused s /\ animated s2 = animated s
          /\ position s2 = position s) as (Hfd2 & Hp2 & Ha2 & Hpos2)
    by (by rewrite Hself2, Hself).
  assert ((fd * N - 1) / fd = N - 1 /\ (fd * N - 1) mod fd = fd - 1) as [Hdiv Hmod].
  { assert (fd * N - 1 = fd * (N - 1) + (fd - 1)) as E by lia.
    split.
    - symmetry. apply (Z.div_unique_pos _ _ _ (fd - 1)); lia.
    - symmetry. apply (Z.mod_unique_pos _ _ (N - 1)); lia. }
  destruct (update_move_run n s2 (fd * N - 1) Hs2)
    as (prev & next & sc & szs & r & ft & txts & Hprev & _ & Hnext & _ & _ & _ & _
        & _ & _ & Hupd).
  { rewrite Hfd2. lia. }
  { rewrite Hfd2, Hpos2, Hdiv. fold N. lia. }
  { rewrite Hfd2, Hp2, Hmod. lia. }
  rewrite Hfd2, Hp2, Ha2, Hdiv, Hmod, !of_int_nearest in *.
  replace (fd - 1 - paused s) with (animated s - 1) in Hupd by lia.
  replace (N - 1 - 1) with (N - 2) in Hprev by lia.
  assert (forall k x, - N <= k < N -> snapshot s2 k = Some x ->
                      snapshot s k = Some x) as Hback.
  { intros k x Hk Hx.
    destruct (Shaped_snapshot n s1 k Hs1) as (y & Hy & _).
    { by rewrite Hself. }
    pose proof (snapshot_kept s1 s2 k y (ev_inputs _ _ Hev) Hy).
    rewrite <- Hsnap. congruence. }
  eexists _, _, prev, next.
  rewrite play_frames. erewrite bind_run by exact Hinit.
  rewrite Hframes, (run_frames_app _ [fd * N - 1] s1 s2 Hrun).
  unfold run_frames. simpl. erewrite bind_run by exact Hupd.
  split; [reflexivity |]. split; [apply Hback; [lia | done] |].
  split; [apply Hback; [lia | done] |]. split; reflexivity.
Qed.

Lemma pass_ends_one_step_short_witness :
  exists s',
    play (__init__ [[(0%float, 0%float)]; [(0.1%float, 0.1%float)]]
                   [[5%float]; [5%float]]
                   (two_frames (Some [0%nat; 1%nat]))) = (Ok tt, s') /\
    (pc_offsets <$> scat s')
    = Some (zip_with (blend (nearest_float64 1) (nearest_float64 2))
                     [(0%float, 0%float)] [(0.1%float, 0.1%float)]).
Proof.
  destruct (pass_ends_one_step_short 1
              (__init__ [[(0%float, 0%float)]; [(0.1%float, 0.1%float)]]
                        [[5%float]; [5%float]] (two_frames (Some [0%nat; 1%nat]))))
    as (s' & sc & prev & last & Hrun & Hprev & Hlast & Hsc & Ho).
  - vm_compute. reflexivity.
  - reflexivity.
  - vm_compute. discriminate.
  - vm_compute. discriminate.
  - vm_compute. discriminate.
  - exists s'. split; [exact Hrun |]. rewrite Hsc. simpl. rewrite Ho.
    injection Hprev as <-. injection Hlast as <-. reflexivity.
Defined.

(** ** Pause frames *)

#[local] Instance display_kept_preorder : PreOrder display_kept.
Proof.
  split.
  - by intros s.
  - intros s1 s2 s3 [] []. split; congruence.
Qed.

Lemma update_pause_display (s : state) i :
  i mod framedelta s < paused s -> display_kept s (update i s).2.
Proof.
  intros Hp. unfold update. apply steps_at_get.
  apply (steps_bind_lift display_kept). intros ni _.
  apply (steps_bind display_kept).
  { unfold draw_lines.
    steps_skeleton display_kept ltac:(apply steps_modify; intros; by split). }
  intros _. apply (steps_bind display_kept).
  { steps_skeleton display_kept ltac:(apply steps_modify; intros; by split). }
  intros _. apply (steps_bind_lift display_kept). intros r Hr.
  unfold modulo in Hr. destruct (framedelta s =? 0); [discriminate |].
  injection Hr as <-. apply Z.ltb_lt in Hp. rewrite Hp.
  steps_skeleton display_kept fail.
Qed.

(** X12. Over pause frames (i mod framedelta < paused), however the run
    ends, [update] leaves the caption, the label slots, both heaps of
    arrays, the colour index and the collections on the axes exactly as
    they were: a pause frame can only set the debug counter and draw the
    connecting lines. *)
Theorem pause_frames_keep_display (fs : list Z) (s : state) :
  (forall i, i ∈ fs -> i mod framedelta s < paused s) ->
  frame_text (run_frames fs s).2 = frame_text s /\
  ax_texts (run_frames fs s).2 = ax_texts s /\
  heap2 (run_frames fs s).2 = heap2 s /\
  heap1 (run_frames fs s).2 = heap1 s /\
  c (run_frames fs s).2 = c s /\
  ax_collections (ax (run_frames fs s).2) = ax_collections (ax s).
Proof.
  intros Hfs.
  assert (display_kept s (run_frames fs s).2) as [].
  { unfold run_frames. revert s Hfs. induction fs as [| i fs IH]; intros s Hfs.
    - simpl. reflexivity.
    - simpl. unfold bind.
      pose proof (update_pause_display s i (Hfs i ltac:(by left))) as Hk.
      destruct (update i s) as [[[] | e] s1]; simpl in *; [| done].
      etransitivity; [exact Hk |]. apply IH.
      intros j Hj. rewrite (dk_self _ _ Hk). apply Hfs. by right. }
  done.
Qed.

Lemma pause_frames_keep_display_witness :
  frame_text (run_frames [3] labelled).2 = frame_text labelled /\
  ax_texts (run_frames [3] labelled).2 = ax_texts labelled /\
  heap2 (run_frames [3] labelled).2 = heap2 labelled /\
  heap1 (run_frames [3] labelled).2 = heap1 labelled /\
  c (run_frames [3] labelled).2 = c labelled /\
  ax_collections (ax (run_frames [3] labelled).2) = ax_collections (ax labelled).
Proof.
  apply (pause_frames_keep_display [3] labelled).
  intros i ->%list_elem_of_singleton. vm_compute. reflexivity.
Defined.

(** ** Inputs that do not fit *)

Lemma broadcast_mismatch f (a b : arr2) :
  length a <> length b -> (1 < length a)%nat -> (1 < length b)%nat ->
  broadcast f a b = Raise ValueError.
Proof.
  intros Hne Ha Hb. unfold broadcast.
  replace (Nat.eqb (length a) (length b)) with false
    by (symmetry; by apply Nat.eqb_neq).
  destruct a as [| r [| r' a]]; simpl in Ha; try lia.
  destruct b as [| q [| q' b]]; simpl in Hb; try lia. done.
Qed.

(** X13. On an interpolation frame between two snapshots with different
    numbers of points (neither of a single row, which numpy would repeat)
    [update] raises [ValueError] at the subtraction of line 151; with
    neither lines nor debug counter enabled nothing has changed when it
    does. *)
Theorem mismatched_snapshots_raise (s : state) (i : Z) (prev next : arr2) :
  framedelta s <> 0 -> paused s <= i mod framedelta s ->
  lines s = false -> debug s = false ->
  snapshot s (i / framedelta s - 1) = Some prev ->
  snapshot s (i / framedelta s) = Some next ->
  length prev <> length next -> (1 < length prev)%nat -> (1 < length next)%nat ->
  update i s = (Raise ValueError, s).
Proof.
  intros Hfd Hp Hl Hd (lp & Hlp & Hap)%snapshot_inv (ln & Hln & Han)%snapshot_inv
         Hne H1 H2.
  unfold update.
  rewrite (bind_run get _ s s s) by done.
  erewrite bind_run.
  2:{ apply lift_run. unfold floordiv.
      replace (framedelta s =? 0) with false by (symmetry; apply Z.eqb_neq; lia).
      reflexivity. }
  rewrite Hl, Hd. simpl.
  rewrite (bind_run (ret tt) _ s s tt) by done.
  rewrite (bind_run (ret tt) _ s s tt) by done.
  erewrite bind_run.
  2:{ apply lift_run. unfold modulo.
      replace (framedelta s =? 0) with false by (symmetry; apply Z.eqb_neq; lia).
      reflexivity. }
  replace (i mod framedelta s <? paused s) with false
    by (symmetry; apply Z.ltb_ge; lia).
  unfold bind at 1.
  assert (interpolate i (i / framedelta s) (i / framedelta s - 1) s
          = (Raise ValueError, s)) as ->; [| done].
  unfold interpolate.
  rewrite (bind_run get _ s s s) by done.
  erewrite bind_run by (apply lift_run; exact Hln).
  erewrite bind_run by (apply deref2_run; exact Han).
  erewrite bind_run by (apply lift_run; exact Hlp).
  erewrite bind_run by (apply deref2_run; exact Hap).
  unfold bind, lift. by rewrite broadcast_mismatch by done.
Qed.

Lemma mismatched_snapshots_raise_witness :
  scat ragged <> None /\ update 4 ragged = (Raise ValueError, ragged).
Proof.
  split; [vm_compute; discriminate |].
  apply (mismatched_snapshots_raise ragged 4
           [(0%float, 0%float); (1%float, 1%float)]
           [(0%float, 0%float); (1%float, 1%float); (2%float, 2%float)]).
  - vm_compute. discriminate.
  - vm_compute. discriminate.
  - reflexivity.
  - reflexivity.
  - vm_compute. reflexivity.
  - vm_compute. reflexivity.
  - simpl. lia.
  - simpl. lia.
  - simpl. lia.
Defined.

Lemma enumerate_lookup {A} (l : list A) k :
  enumerate l !! k = (fun x => (Z.of_nat k, x)) <$> l !! k.
Proof.
  unfold enumerate. rewrite combine_lookup.
  destruct (l !! k) as [x |] eqn:Hk; simpl.
  - assert (range 0 (Z.of_nat (length l)) !! k = Some (Z.of_nat k)) as ->; [| done].
    unfold range. rewrite list_lookup_fmap, lookup_seq_lt; [done |].
    apply lookup_lt_Some in Hk. lia.
  - by destruct (range 0 (Z.of_nat (length l)) !! k).
Qed.

Lemma for_each_raise {A} (l1 l2 : list A) (x : A) (body : A -> M unit)
    (s s1 s2 : state) e :
  for_each l1 body s = (Ok tt, s1) -> body x s1 = (Raise e, s2) ->
  for_each (l1 ++ x :: l2) body s = (Raise e, s2).
Proof.
  revert s. induction l1 as [| y l1 IH]; intros s; simpl.
  - unfold ret. intros [= ->] Hx. unfold bind. by rewrite Hx.
  - unfold bind. destruct (body y s) as [[[] | e'] s']; [apply IH | discriminate].
Qed.

Lemma bind_raise {A B} (m : M A) (k : A -> M B) (s s1 : state) e :
  m s = (Raise e, s1) -> bind m k s = (Raise e, s1).
Proof. intros H. unfold bind. by rewrite H. Qed.

(** X14. With more text labels than points in the first snapshot,
    [initScat] creates one label slot per point and then raises
    [IndexError] at line 94, where it subscripts the first size array with
    the index of the first label that has no point; no scatter has been
    created when it does. *)
Theorem too_many_labels_raise (s : state) (a0 : arr2) (s0 : arr1)
    (tl : list string) :
  snapshot s 0 = Some a0 -> size_snapshot s 0 = Some s0 ->
  length a0 = length s0 ->
  text_labels s = Some tl -> (length s0 < length tl)%nat ->
  exists s', initScat s = (Raise IndexError, s') /\ scat s' = scat s /\
             exists txts, ax_texts s' = Some txts /\ length txts = length s0.
Proof.
  intros Ha0 Hs0 Hlen Htl Hlt.
  set (n := length s0) in *.
  set (s1 := with_frame_text (first_caption s) s).
  assert (match frame_labels s with
          | Some _ =>
              let! tl := lift (subscriptable (text_labels s)) in
              let! lbl := lift (index tl 0) in
              modify (with_frame_text
                        (Some (mkText (frame_loc s) (Str lbl) (Some 24))))
          | None => ret tt
          end s = (Ok tt, s1)) as Hcap.
  { unfold s1, first_caption. rewrite Htl. destruct (frame_labels s) as [fl |].
    - destruct tl as [| lbl tl]; [simpl in Hlt; lia |].
      erewrite bind_run by (by apply lift_run).
      erewrite bind_run by (apply lift_run; by apply index_nonneg).
      reflexivity.
    - unfold ret. by rewrite with_frame_text_eta. }
  set (s2 := with_ax_texts (Some []) s1).
  destruct (lookup_lt_is_Some_2 tl n Hlt) as [lbl Hlbl].
  assert (enumerate tl = take n (enumerate tl)
                         ++ (Z.of_nat n, lbl) :: drop (S n) (enumerate tl)) as Hsplit.
  { rewrite <- (take_drop n (enumerate tl)) at 1. f_equal.
    apply drop_S. by rewrite enumerate_lookup, Hlbl. }
  set (js1 := take n (enumerate tl)) in *.
  set (s3 := with_ax_texts
               (Some ([] ++ map (fun il : Z * string =>
                                   tl !! Z.to_nat il.1
                                   ≫= label_slot (threshold s2) a0 s0 (Z.to_nat il.1))
                                js1)) s2).
  assert (for_each js1 (fun il => init_label il.1) s2 = (Ok tt, s3)) as Hloop.
  { apply (init_labels_run n); try done.
    intros il [k Hk]%list_elem_of_lookup. unfold js1 in Hk.
    apply lookup_take_Some in Hk as [Hk Hkn].
    rewrite enumerate_lookup in Hk.
    destruct (tl !! k) as [x |] eqn:Hx; [| discriminate].
    injection Hk as <-. simpl. apply lookup_lt_Some in Hx. lia. }
  assert (init_label (Z.of_nat n) s3 = (Raise IndexError, s3)) as Hfail.
  { pose proof Hs0 as Hs0'. unfold size_snapshot in Hs0'.
    destruct (sizes s) as [szs |] eqn:Hsz; [| discriminate].
    destruct (index szs 0) as [l0 |] eqn:Hl0; [| discriminate].
    unfold init_label.
    rewrite (bind_run get _ s3 s3 s3) by done.
    erewrite bind_run by (apply lift_run; simpl; rewrite Hsz; reflexivity).
    erewrite bind_run by (apply lift_run; exact Hl0).
    erewrite bind_run by (apply deref1_run; exact Hs0').
    unfold bind, lift. rewrite index_past_end; [done | lia]. }
  exists s3. split; [| split; [reflexivity |]].
  - unfold initScat.
    rewrite (bind_run get _ s s s) by done.
    erewrite bind_run by exact Hcap.
    erewrite bind_run by reflexivity.
    apply bind_raise. rewrite Htl. cbv beta iota. rewrite Hsplit.
    apply (for_each_raise js1 _ (Z.of_nat n, lbl) _ s2 s3 s3 _ Hloop Hfail).
  - eexists. split; [reflexivity |]. simpl. rewrite length_map. unfold js1.
    rewrite length_take, enumerate_length. lia.
Qed.

Lemma too_many_labels_raise_witness :
  exists s', initScat overlabelled_input = (Raise IndexError, s') /\
             scat s' = scat overlabelled_input /\
             exists txts, ax_texts s' = Some txts /\ length txts = 1%nat.
Proof.
  apply (too_many_labels_raise overlabelled_input [(0%float, 0%float)] [5%float]
           ["a"; "b"]).
  - vm_compute. reflexivity.
  - vm_compute. reflexivity.
  - reflexivity.
  - reflexivity.
  - simpl. lia.
Defined.

(** X15. With an empty list of snapshots [initScat] never returns: it
    subscripts [position[0]], at the latest when it creates the scatter;
    a pass of the animation ends in the same exception. *)
Theorem initScat_needs_a_snapshot (s : state) :
  position s = [] ->
  exists e s', initScat s = (Raise e, s') /\ play s = (Raise e, s').
Proof.
  intros Hpos. destruct (initScat s) as [[[] | e] s'] eqn:E.
  - apply initScat_Ok_inv in E as (_ & a0 & _ & _ & _ & Ha0 & _).
    unfold snapshot in Ha0. by rewrite Hpos in Ha0.
  - exists e, s'. split; [done |]. rewrite play_frames. unfold bind. by rewrite E.
Qed.

Lemma initScat_needs_a_snapshot_witness :
  exists e s', initScat (__init__ [] [] (defaults [])) = (Raise e, s') /\
               play (__init__ [] [] (defaults [])) = (Raise e, s').
Proof. apply (initScat_needs_a_snapshot (__init__ [] [] (defaults []))). reflexivity. Defined.

(** ** Witnesses of the general lemmas behind C6 and C8 *)


Lemma initScat_needs_sizes_witness :
  exists e s', initScat default_input = (Raise e, s').
Proof. apply (initScat_needs_sizes default_input). reflexivity. Defined.
